(** * Absensi RFID: the scan-to-log pipeline of [absensi.py]

    A shallow embedding of [ArduinoUno-RFIDController/absensi.py]:
    the identifier normalizer [normalize_uid], the record store [CsvStore],
    the serial worker [SerialReader.run] and the handlers of [App] that
    touch the profile list and the attendance log.

    Python values are modelled as follows.
    - A [str] is the list of its code points.  Python's [str.isalnum],
      [str.upper] and [str.strip] follow the Unicode database; their
      behaviour on ASCII is written out here, their behaviour on the other
      code points is the interface [UnicodeData].
    - The two CSV files are modelled at the level of the [csv] module: a
      file is the list of rows that [csv.writer] wrote and [csv.reader]
      yields, a row is a list of cells.
    - A handler of [App] is a computation in a state-and-exception monad:
      a raised exception keeps the mutations made before it. *)

From Stdlib Require Import List NArith ZArith Bool String Ascii Lia Permutation.
Import ListNotations.

(** ** Python strings *)

Definition char := N.
Bind Scope N_scope with char.
Definition str := list char.

(** An ASCII literal as a [str]. *)
Definition py (s : string) : str := map N_of_ascii (list_ascii_of_string s).

Fixpoint str_eqb (a b : str) : bool :=
  match a, b with
  | [], [] => true
  | x :: a', y :: b' => (x =? y)%N && str_eqb a' b'
  | _, _ => false
  end.

(** Truth value of a string: [if s:] holds when [s] is not empty. *)
Definition truthy (s : str) : bool :=
  match s with [] => false | _ :: _ => true end.

(** What the Unicode database says about the code points above ASCII:
    [str.isalnum] of a one-character string, the full upper-case mapping
    used by [str.upper] (one code point can map to several), and
    [str.isspace]. *)
Class UnicodeData := {
  ucd_isalnum : char -> bool;
  ucd_upper : char -> list char;
  ucd_isspace : char -> bool
}.

Definition is_ascii (c : char) : bool := (c <? 128)%N.
Definition between (lo hi c : char) : bool := ((lo <=? c) && (c <=? hi))%N.
Definition is_digit (c : char) : bool := between 48 57 c.
Definition is_upper_AZ (c : char) : bool := between 65 90 c.
Definition is_lower_az (c : char) : bool := between 97 122 c.

(** ASCII upper-casing: [a-z] moves to [A-Z], the rest stays. *)
Definition ascii_upper (c : char) : char :=
  if is_lower_az c then (c - 32)%N else c.

(** Upper-case alphanumeric in the ASCII sense: [A-Z] or [0-9]. *)
Definition is_upper_alnum (c : char) : bool := is_upper_AZ c || is_digit c.

(** A string of ASCII characters only. *)
Definition is_ascii_str (s : str) : bool := forallb is_ascii s.

Section Strings.
Context {U : UnicodeData}.

Definition isalnum (c : char) : bool :=
  if is_ascii c then is_digit c || is_upper_AZ c || is_lower_az c
  else ucd_isalnum c.

Definition upper_char (c : char) : list char :=
  if is_ascii c then [ascii_upper c] else ucd_upper c.

(** [s.upper()] *)
Definition upper (s : str) : str := flat_map upper_char s.

(** ASCII white space of [str.isspace]: TAB..CR, FS..US and the space. *)
Definition isspace (c : char) : bool :=
  if is_ascii c then between 9 13 c || between 28 32 c
  else ucd_isspace c.

Fixpoint lstrip (s : str) : str :=
  match s with
  | [] => []
  | c :: r => if isspace c then lstrip r else s
  end.

Definition rstrip (s : str) : str := rev (lstrip (rev s)).

(** [s.strip()] *)
Definition strip (s : str) : str := rstrip (lstrip s).

(** [normalize_uid]:
    [t = ''.join(c for c in text if c.isalnum()); return t.upper()] *)
Definition normalize_uid (text : str) : str :=
  let t := filter isalnum text in
  upper t.

End Strings.

(** The entries of the Unicode database for U+01F0 (LATIN SMALL LETTER J
    WITH CARON: a letter, upper-cased to U+004A U+030C by SpecialCasing) and
    U+030C (COMBINING CARON: a mark, not alphanumeric, no case).  The other
    entries are left at a default and are never consulted below. *)
#[export] Instance ucd_j_caron : UnicodeData := {|
  ucd_isalnum c := (c =? 496)%N;
  ucd_upper c := if (c =? 496)%N then [74; 780]%N else [c];
  ucd_isspace c := false
|}.

(** ** Exceptions *)

Inductive exn :=
| FileNotFoundError (path : str)   (* open() for reading, no such file *)
| PermissionError (path : str)     (* open() for writing, read-only file *)
| KeyError (key : str)             (* d[key], key missing *)
| AttributeError                   (* None.strip() *)
| OSError.                         (* write(): no space left on device *)

Inductive result (A : Type) :=
| Ok (a : A)
| Raise (e : exn).
Arguments Ok {A} a.
Arguments Raise {A} e.

Definition rbind {A B} (r : result A) (f : A -> result B) : result B :=
  match r with
  | Ok a => f a
  | Raise e => Raise e
  end.

Fixpoint rmap {A B} (f : A -> result B) (l : list A) : result (list B) :=
  match l with
  | [] => Ok []
  | a :: l' => rbind (f a) (fun b => rbind (rmap f l') (fun bs => Ok (b :: bs)))
  end.

(** ** The files

    A cell is a string, a row a list of cells, the content of a file the
    list of its rows: no row means no byte, since every row written ends
    with a line terminator.  A file that exists is writable or read-only;
    opening a read-only file for writing raises, and this is the I/O
    failure the model has. *)

Definition row := list str.

Inductive node :=
| Absent
| File (writable : bool) (rows : list row).

Record disk := { users_csv : node; log_csv : node }.

Definition USERS_CSV : str := py "users.csv".
Definition LOG_CSV : str := py "absensi.csv".

Definition exists_ (n : node) : bool :=
  match n with Absent => false | File _ _ => true end.

(** [open(path, newline="")]: the rows to read. *)
Definition open_r (path : str) (n : node) : result (list row) :=
  match n with
  | Absent => Raise (FileNotFoundError path)
  | File _ rows => Ok rows
  end.

(** [open(path, "w")]: creates or truncates; the rows before any write. *)
Definition open_w (path : str) (n : node) : result (list row) :=
  match n with
  | File false _ => Raise (PermissionError path)
  | _ => Ok []
  end.

(** [open(path, "a")]: creates or keeps; the rows before any write. *)
Definition open_a (path : str) (n : node) : result (list row) :=
  match n with
  | Absent => Ok []
  | File true rows => Ok rows
  | File false _ => Raise (PermissionError path)
  end.

(** [f.tell()] of a file just opened for appending: 0 on an empty file. *)
Definition tell_is_0 (rows : list row) : bool :=
  match rows with [] => true | _ :: _ => false end.

(** ** Dictionaries of [csv.DictReader] and the profiles

    A value is a string or [None]. *)

Definition pyval := option str.
Definition dict := list (str * pyval).

Fixpoint dict_get (k : str) (d : dict) : option pyval :=
  match d with
  | [] => None
  | (k', v) :: d' => if str_eqb k' k then Some v else dict_get k d'
  end.

(** [d[k] = v]: replaces the value of a key already there. *)
Fixpoint dict_set (k : str) (v : pyval) (d : dict) : dict :=
  match d with
  | [] => [(k, v)]
  | (k', v') :: d' =>
      if str_eqb k' k then (k', v) :: d' else (k', v') :: dict_set k v d'
  end.

(** [d[k]] *)
Definition getitem (d : dict) (k : str) : result pyval :=
  match dict_get k d with
  | Some v => Ok v
  | None => Raise (KeyError k)
  end.

(** [d.get(k, default)] *)
Definition get_default (d : dict) (k : str) (default : pyval) : pyval :=
  match dict_get k d with
  | Some v => v
  | None => default
  end.

(** The pairs [DictReader.__next__] stores for one row:
    [dict(zip(fieldnames, row))], then [restval = None] for the field names
    without a cell.  Cells beyond the field names go under the key [None],
    which no code of the program reads: they are left out. *)
Fixpoint zip_rest (fieldnames : list str) (r : row) : list (str * pyval) :=
  match fieldnames, r with
  | [], _ => []
  | f :: fs, [] => (f, None) :: zip_rest fs []
  | f :: fs, c :: cs => (f, Some c) :: zip_rest fs cs
  end.

Definition row_dict (fieldnames : list str) (r : row) : dict :=
  fold_left (fun d kv => dict_set (fst kv) (snd kv) d) (zip_rest fieldnames r) [].

Definition is_blank (r : row) : bool :=
  match r with [] => true | _ :: _ => false end.

(** [csv.DictReader(f)]: the first row gives the field names, blank rows
    are skipped. *)
Definition DictReader (rows : list row) : list dict :=
  match rows with
  | [] => []
  | fieldnames :: rest =>
      map (row_dict fieldnames) (filter (fun r => negb (is_blank r)) rest)
  end.

(** What [csv.writer] writes for a value: [None] is the empty cell. *)
Definition cell (v : pyval) : str :=
  match v with
  | Some s => s
  | None => []
  end.

(** An entry of [self.users]: [{"uid": ..., "nama": ..., "umur": ...}]. *)
Record user := { uid : str; nama : pyval; umur : pyval }.

(** [lst[start:]] *)
Definition slice_from {A} (start : Z) (l : list A) : list A :=
  let n := Z.of_nat (List.length l) in
  let i := if (start <? 0)%Z then Z.max 0 (n + start) else Z.min start n in
  skipn (Z.to_nat i) l.

(** ** [CsvStore] *)

Definition users_header : row := [py "uid"; py "nama"; py "umur"].
Definition log_header : row := [py "uid"; py "nama"; py "waktu"].

Section CsvStore.
Context {U : UnicodeData}.

Definition ensure_files (d : disk) : disk :=
  let d1 :=
    if negb (exists_ (users_csv d))
    then {| users_csv := File true [users_header]; log_csv := log_csv d |}
    else d in
  if negb (exists_ (log_csv d1))
  then {| users_csv := users_csv d1; log_csv := File true [log_header] |}
  else d1.

(** The dictionary [load_users] builds from one row of the reader. *)
Definition load_user (r : dict) : result user :=
  rbind (getitem r (py "uid")) (fun u =>
  match u with
  | None => Raise AttributeError
  | Some u =>
      rbind (getitem r (py "nama")) (fun n =>
      Ok {| uid := upper (strip u);
            nama := n;
            umur := get_default r (py "umur") (Some []) |})
  end).

Definition load_users (d : disk) : result (list user) :=
  rbind (open_r USERS_CSV (users_csv d)) (fun rows =>
  rmap load_user (DictReader rows)).

(** The row [save_users] writes for one profile. *)
Definition user_row (u : user) : row :=
  [upper (uid u); cell (nama u); cell (umur u)].

(** [save_users(users)] where every write succeeds: it fails where
    [open] fails.  A write that fails is the matter of [save_users_on]
    below. *)
Definition save_users (users : list user) (d : disk) : result disk :=
  rbind (open_w USERS_CSV (users_csv d)) (fun f =>
  let f := f ++ [users_header] in
  let f := f ++ map user_row users in
  Ok {| users_csv := File true f; log_csv := log_csv d |}).

(** [append_log(uid, nama)]; [waktu] is the formatted reading of the
    clock. *)
Definition append_log (uid : str) (nama : pyval) (waktu : str) (d : disk)
  : result disk :=
  rbind (open_a LOG_CSV (log_csv d)) (fun f =>
  let f := if tell_is_0 f then f ++ [log_header] else f in
  let f := f ++ [[upper uid; cell nama; waktu]] in
  Ok {| users_csv := users_csv d; log_csv := File true f |}).

(** [load_logs(limit=None)]; [if limit:] fails on [None] and on 0. *)
Definition load_logs (limit : option Z) (d : disk) : result (list dict) :=
  rbind (open_r LOG_CSV (log_csv d)) (fun rows =>
  let logs := DictReader rows in
  match limit with
  | Some n => if (n =? 0)%Z then Ok logs else Ok (slice_from (- n) logs)
  | None => Ok logs
  end).

End CsvStore.

(** ** [SerialReader.run]

    The worker meets its environment once per turn of the loop: either
    the stop event is set, or [readline] returns the bytes it read
    (decoded, undecodable bytes dropped: a text, empty on a timeout) or
    raises. *)

Inductive turn :=
| StopSet
| ReadLine (text : str)
| ReadFails (e : str).

Record worker := {
  out_queue : list str;     (* self.out_queue, oldest first *)
  reported : list str;      (* the calls of self.on_error *)
  finished : bool;          (* run() has returned *)
  ser_open : bool           (* the port is open *)
}.

Section SerialReader.
Context {U : UnicodeData}.

(** The [while not self._stop.is_set()] loop over the turns that happen:
    the queue, the reported errors, and whether the loop was left (it is
    still going when the turns run out). *)
Fixpoint run_loop (turns : list turn) (q : list str) (errs : list str)
  : list str * list str * bool :=
  match turns with
  | [] => (q, errs, false)
  | StopSet :: _ => (q, errs, true)
  | ReadLine text :: rest =>
      let line := strip text in
      if truthy line then
        let uid := normalize_uid line in
        if truthy uid then run_loop rest (q ++ [uid]) errs
        else run_loop rest q errs
      else run_loop rest q errs
  | ReadFails e :: _ => (q, errs ++ [py "Serial error: " ++ e], true)
  end.

(** [run()]: [open_fails] is the exception of [serial.Serial(...)], if
    any. *)
Definition run (port : str) (open_fails : option str) (turns : list turn)
  (q : list str) : worker :=
  match open_fails with
  | Some e =>
      {| out_queue := q;
         reported := [py "Gagal open port " ++ port ++ py ": " ++ e];
         finished := true; ser_open := false |}
  | None =>
      let '(q', errs, done) := run_loop turns q [] in
      {| out_queue := q'; reported := errs; finished := done;
         ser_open := negb done |}
  end.

End SerialReader.

(** ** [App]

    The attributes of the window that the handlers read and write, and
    the world it runs in: the two files and the wall clock, whose
    successive readings ([datetime.now()], formatted) are [wall_clock 0],
    [wall_clock 1], ...  The two tables on screen show [users] and the last
    200 of [logs]; the label flashing of [flash_uid_label] changes neither
    and is left out. *)

Inductive dialog :=
| showerror (title message : string)
| showinfo (title message : string).

Record App := {
  users : list user;
  logs : list dict;
  uid_detected_var : str;
  uid_var : str;
  nama_var : str;
  umur_var : str;
  serial_queue : list str;
  bells : nat;                 (* the calls of self.bell() *)
  dialogs : list dialog;       (* the message boxes shown, oldest first *)
  files : disk;
  wall_clock : nat -> str;
  clock_reads : nat
}.

Definition set_users (v : list user) (a : App) : App :=
  {| users := v; logs := logs a; uid_detected_var := uid_detected_var a;
     uid_var := uid_var a; nama_var := nama_var a; umur_var := umur_var a;
     serial_queue := serial_queue a; bells := bells a; dialogs := dialogs a;
     files := files a; wall_clock := wall_clock a;
     clock_reads := clock_reads a |}.

Definition set_logs (v : list dict) (a : App) : App :=
  {| users := users a; logs := v; uid_detected_var := uid_detected_var a;
     uid_var := uid_var a; nama_var := nama_var a; umur_var := umur_var a;
     serial_queue := serial_queue a; bells := bells a; dialogs := dialogs a;
     files := files a; wall_clock := wall_clock a;
     clock_reads := clock_reads a |}.

Definition set_uid_detected_var (v : str) (a : App) : App :=
  {| users := users a; logs := logs a; uid_detected_var := v;
     uid_var := uid_var a; nama_var := nama_var a; umur_var := umur_var a;
     serial_queue := serial_queue a; bells := bells a; dialogs := dialogs a;
     files := files a; wall_clock := wall_clock a;
     clock_reads := clock_reads a |}.

Definition set_uid_var (v : str) (a : App) : App :=
  {| users := users a; logs := logs a; uid_detected_var := uid_detected_var a;
     uid_var := v; nama_var := nama_var a; umur_var := umur_var a;
     serial_queue := serial_queue a; bells := bells a; dialogs := dialogs a;
     files := files a; wall_clock := wall_clock a;
     clock_reads := clock_reads a |}.

Definition set_serial_queue (v : list str) (a : App) : App :=
  {| users := users a; logs := logs a; uid_detected_var := uid_detected_var a;
     uid_var := uid_var a; nama_var := nama_var a; umur_var := umur_var a;
     serial_queue := v; bells := bells a; dialogs := dialogs a;
     files := files a; wall_clock := wall_clock a;
     clock_reads := clock_reads a |}.

Definition ring_bell (a : App) : App :=
  {| users := users a; logs := logs a; uid_detected_var := uid_detected_var a;
     uid_var := uid_var a; nama_var := nama_var a; umur_var := umur_var a;
     serial_queue := serial_queue a; bells := S (bells a);
     dialogs := dialogs a; files := files a; wall_clock := wall_clock a;
     clock_reads := clock_reads a |}.

Definition show (m : dialog) (a : App) : App :=
  {| users := users a; logs := logs a; uid_detected_var := uid_detected_var a;
     uid_var := uid_var a; nama_var := nama_var a; umur_var := umur_var a;
     serial_queue := serial_queue a; bells := bells a;
     dialogs := dialogs a ++ [m]; files := files a;
     wall_clock := wall_clock a; clock_reads := clock_reads a |}.

Definition set_files (v : disk) (a : App) : App :=
  {| users := users a; logs := logs a; uid_detected_var := uid_detected_var a;
     uid_var := uid_var a; nama_var := nama_var a; umur_var := umur_var a;
     serial_queue := serial_queue a; bells := bells a; dialogs := dialogs a;
     files := v; wall_clock := wall_clock a; clock_reads := clock_reads a |}.

Definition tick_clock (a : App) : App :=
  {| users := users a; logs := logs a; uid_detected_var := uid_detected_var a;
     uid_var := uid_var a; nama_var := nama_var a; umur_var := umur_var a;
     serial_queue := serial_queue a; bells := bells a; dialogs := dialogs a;
     files := files a; wall_clock := wall_clock a;
     clock_reads := S (clock_reads a) |}.

(** A handler: from the state before to what it returns or raises, and
    the state after.  The state after a [Raise] is the state at the moment
    of the exception. *)
Definition M (A : Type) := App -> result A * App.

Definition ret {A} (x : A) : M A := fun a => (Ok x, a).

Definition bind {A B} (m : M A) (k : A -> M B) : M B :=
  fun a =>
    match m a with
    | (Ok x, a') => k x a'
    | (Raise e, a') => (Raise e, a')
    end.

Definition get : M App := fun a => (Ok a, a).
Definition modify (f : App -> App) : M unit := fun a => (Ok tt, f a).
Definition lift {A} (r : result A) : M A := fun a => (r, a).

Declare Scope handler_scope.
Delimit Scope handler_scope with handler.
Notation "x <- m ;; k" := (bind m (fun x => k))
  (at level 61, m at next level, right associativity) : handler_scope.
Notation "m ;; k" := (bind m (fun _ => k))
  (at level 61, right associativity) : handler_scope.

Section AppHandlers.
Context {U : UnicodeData}.
Local Open Scope handler_scope.

(** [CsvStore.save_users(self.users)] *)
Definition save_users_M : M unit :=
  fun a =>
    match save_users (users a) (files a) with
    | Ok d => (Ok tt, set_files d a)
    | Raise e => (Raise e, a)
    end.

(** [CsvStore.append_log(uid, nama)]: the clock is read once the file is
    open. *)
Definition append_log_M (uid : str) (nama : pyval) : M unit :=
  fun a =>
    match append_log uid nama (wall_clock a (clock_reads a)) (files a) with
    | Ok d => (Ok tt, tick_clock (set_files d a))
    | Raise e => (Raise e, a)
    end.

(** Filling the table of logs reads three keys of every row shown. *)
Definition show_log (r : dict) : result unit :=
  rbind (getitem r (py "waktu")) (fun _ =>
  rbind (getitem r (py "uid")) (fun _ =>
  rbind (getitem r (py "nama")) (fun _ => Ok tt))).

Definition refresh_tables : M unit :=
  a <- get ;;
  us <- lift (load_users (files a)) ;;
  modify (set_users us) ;;
  ls <- lift (load_logs None (files a)) ;;
  modify (set_logs ls) ;;
  _ <- lift (rmap show_log (slice_from (-200) ls)) ;;
  ret tt.

Definition find_user_by_uid (us : list user) (uid_ : str) : option user :=
  let uid_ := normalize_uid uid_ in
  find (fun u => str_eqb (normalize_uid (uid u)) uid_) us.

Definition on_uid_received (uid_ : str) : M unit :=
  modify (set_uid_detected_var uid_) ;;
  a <- get ;;
  match find_user_by_uid (users a) uid_ with
  | Some user_ =>
      append_log_M uid_ (nama user_) ;;
      refresh_tables
  | None =>
      modify (set_uid_var uid_) ;;
      modify ring_bell
  end.

(** The [while True] loop of [_poll_serial] over the identifiers queued
    when the tick starts. *)
Fixpoint drain (queued : list str) : M unit :=
  match queued with
  | [] => ret tt
  | uid_ :: rest =>
      modify (fun a => set_serial_queue (tl (serial_queue a)) a) ;;
      (if truthy uid_ then on_uid_received uid_ else ret tt) ;;
      drain rest
  end.

(** [_poll_serial]; [Ok] is followed by [self.after(100, ...)]. *)
Definition poll_serial : M unit :=
  a <- get ;;
  drain (serial_queue a).

(** The update loop of [form_save]. *)
Definition update_users (uid_ nama_ umur_ : str) (us : list user) : list user :=
  map (fun u =>
         if str_eqb (normalize_uid (uid u)) uid_
         then {| uid := uid u; nama := Some nama_; umur := Some umur_ |}
         else u) us.

Definition form_save : M unit :=
  a <- get ;;
  let uid_ := normalize_uid (uid_var a) in
  let nama_ := strip (nama_var a) in
  let umur_ := strip (umur_var a) in
  if negb (truthy uid_) || negb (truthy nama_) then
    modify (show (showerror "Error" "UID dan Nama wajib diisi."))
  else
    (match find_user_by_uid (users a) uid_ with
     | Some _ =>
         modify (set_users (update_users uid_ nama_ umur_ (users a))) ;;
         save_users_M ;;
         modify (show (showinfo "Sukses" "Data pengguna diperbarui."))
     | None =>
         modify (set_users
           (users a ++
            [{| uid := uid_; nama := Some nama_; umur := Some umur_ |}])) ;;
         save_users_M ;;
         modify (show (showinfo "Sukses" "Pengguna baru ditambahkan."))
     end ;;
     refresh_tables).

(** [delete_user]: [sel] is the UID cell of the row selected in the table
    of users, if one is; [yes] the answer to the confirmation. *)
Definition delete_user (sel : option str) (yes : bool) : M unit :=
  match sel with
  | None => modify (show (showerror "Error" "Pilih data yang akan dihapus."))
  | Some v =>
      let uid_ := normalize_uid v in
      if yes then
        a <- get ;;
        modify (set_users
          (filter (fun u => negb (str_eqb (normalize_uid (uid u)) uid_))
                  (users a))) ;;
        save_users_M ;;
        refresh_tables
      else ret tt
  end.

End AppHandlers.

(** ** Vocabulary of the statements *)

(** The scanned text [" ab-12 cd \n"]. *)
Definition scan_ab12cd : str := py " ab-12 cd " ++ [10%N].

(** The rows of a file, none when it is absent. *)
Definition content (n : node) : list row :=
  match n with
  | Absent => []
  | File _ rows => rows
  end.

Definition read_only (n : node) : bool :=
  match n with
  | File false _ => true
  | _ => false
  end.

(** The rows of a file that [csv.DictReader] yields as records: the rows
    under the first one, blank rows apart. *)
Definition records (n : node) : list row :=
  match content n with
  | [] => []
  | _ :: rest => filter (fun r => negb (is_blank r)) rest
  end.

(** An attendance record, its row in the log and its dictionary as
    [load_logs] returns it. *)
Record AttendanceRecord := { rec_uid : str; rec_nama : str; rec_waktu : str }.

Definition record_row (r : AttendanceRecord) : row :=
  [rec_uid r; rec_nama r; rec_waktu r].

Definition record_dict (r : AttendanceRecord) : dict :=
  [(py "uid", Some (rec_uid r)); (py "nama", Some (rec_nama r));
   (py "waktu", Some (rec_waktu r))].

(** A log as [ensure_files] and [append_log] build it: the header, then
    one row per record. *)
Definition log_file (writable : bool) (recs : list AttendanceRecord) : node :=
  File writable (log_header :: map record_row recs).

(** The last [k] elements of a list, all of them when it is shorter. *)
Definition lastn {A} (k : nat) (l : list A) : list A :=
  skipn (List.length l - k) l.

(** Two records, for the examples. *)
Definition two_records : list AttendanceRecord :=
  [ {| rec_uid := py "AB12CD"; rec_nama := py "Alice";
       rec_waktu := py "2024-05-01 08:00:00" |};
    {| rec_uid := py "77FF01"; rec_nama := py "Budi";
       rec_waktu := py "2024-05-01 08:05:00" |} ].



Definition ascii_uid (u : user) : bool := is_ascii_str (uid u).

(** What a handler leaves alone. *)
Definition same_world (a a' : App) : Prop :=
  files a' = files a /\ wall_clock a' = wall_clock a /\
  clock_reads a' = clock_reads a.

Definition same_inputs (a a' : App) : Prop :=
  uid_var a' = uid_var a /\ nama_var a' = nama_var a /\
  umur_var a' = umur_var a /\ bells a' = bells a /\
  serial_queue a' = serial_queue a /\ dialogs a' = dialogs a.

(** A window just opened on the files [d], with the profiles [us] in
    memory and the form filled with [u], [n] and [m]. *)
Definition window (us : list user) (u n m : str) (d : disk) : App :=
  {| users := us; logs := []; uid_detected_var := py "-";
     uid_var := u; nama_var := n; umur_var := m;
     serial_queue := []; bells := 0; dialogs := [];
     files := d; wall_clock := fun _ => py "2024-05-01 08:00:00";
     clock_reads := 0 |}.

Definition alice : user :=
  {| uid := py "AB12CD"; nama := Some (py "Alice"); umur := Some (py "30") |}.

(** A users file that cannot be written, and a form filled for a new
    profile. *)
Definition read_only_disk : disk :=
  {| users_csv := File false [users_header]; log_csv := Absent |}.

Definition new_profile_form : App :=
  window [] (py "ab-12 cd") (py " Alice ") (py "30") read_only_disk.

(** Two profiles, U+01F0 and J, and a form filled for a third one. *)
Definition j_caron_form : App :=
  window [ {| uid := [496%N]; nama := Some (py "Joko"); umur := Some [] |};
           {| uid := py "J"; nama := Some (py "Jaka"); umur := Some [] |} ]
         (py "K1") (py "Kiki") []
         {| users_csv := Absent; log_csv := Absent |}.

Section Vocabulary.
Context {U : UnicodeData}.

(** An identifier that some turn of the worker's loop may have published:
    not empty, and the normal form of a line read that was not empty once
    stripped. *)
Definition published_by (turns : list turn) (uid_ : str) : Prop :=
  uid_ <> [] /\
  exists text, In (ReadLine text) turns /\ strip text <> [] /\
               uid_ = normalize_uid (strip text).

(** The record that [append_log uid nama] writes at the time [waktu]. *)
Definition logged (uid_ : str) (nama_ : pyval) (waktu : str) : AttendanceRecord :=
  {| rec_uid := upper uid_; rec_nama := cell nama_; rec_waktu := waktu |}.

(** A profile matches an identifier when their normal forms are equal. *)
Definition matches (uid_ : str) (u : user) : Prop :=
  normalize_uid (uid u) = normalize_uid uid_.

(** The identifiers of a list of profiles, in normal form; the list is a
    set of profiles when they are pairwise distinct. *)
Definition canonical_ids (us : list user) : list str :=
  map (fun u => normalize_uid (uid u)) us.

Definition unique_ids (us : list user) : Prop := NoDup (canonical_ids us).


(** A profile as it comes back from the file it was saved to. *)
Definition reloaded (u : user) : user :=
  {| uid := upper (strip (upper (uid u)));
     nama := Some (cell (nama u));
     umur := Some (cell (umur u)) |}.

(** The list [form_save] holds when it calls [save_users]: the matching
    profiles updated, or the new profile appended. *)
Definition form_users (a : App) : list user :=
  let uid_ := normalize_uid (uid_var a) in
  let nama_ := strip (nama_var a) in
  let umur_ := strip (umur_var a) in
  match find_user_by_uid (users a) uid_ with
  | Some _ => update_users uid_ nama_ umur_ (users a)
  | None =>
      users a ++ [{| uid := uid_; nama := Some nama_; umur := Some umur_ |}]
  end.

(** The list [delete_user] holds when it calls [save_users]. *)
Definition users_without (v : str) (a : App) : list user :=
  filter (fun u => negb (str_eqb (normalize_uid (uid u)) (normalize_uid v)))
         (users a).

End Vocabulary.

(** ** The window and its buttons

    The handlers above use a part of the window.  The handlers of the
    buttons use more of it: the port chosen, the worker connected, message
    boxes with a warning or with a text built from a value.  A [Window]
    is an [App] with these. *)

Inductive box :=
| info_box (title : string) (message : str)
| warning_box (title : string) (message : str)
| error_box (title : string) (message : str).

(** A [SerialReader] as [connect] builds it. *)
Record reader_thread := { port : str; baud : Z }.

Definition BAUDRATE : Z := 9600.

Record Window := {
  core : App;
  boxes : list box;              (* the message boxes of the buttons *)
  port_var : str;
  serial_module : bool;          (* [serial is not None] *)
  reader : option reader_thread; (* self.reader *)
  started : list reader_thread;  (* the calls of start(), oldest first *)
  stops : nat                    (* the calls of stop() *)
}.

Definition set_core (v : App) (w : Window) : Window :=
  {| core := v; boxes := boxes w; port_var := port_var w;
     serial_module := serial_module w; reader := reader w;
     started := started w; stops := stops w |}.

Definition add_box (b : box) (w : Window) : Window :=
  {| core := core w; boxes := boxes w ++ [b]; port_var := port_var w;
     serial_module := serial_module w; reader := reader w;
     started := started w; stops := stops w |}.

(** [self.reader = SerialReader(...); self.reader.start()] *)
Definition start_reader (r : reader_thread) (w : Window) : Window :=
  {| core := core w; boxes := boxes w; port_var := port_var w;
     serial_module := serial_module w; reader := Some r;
     started := started w ++ [r]; stops := stops w |}.

(** [self.reader.stop(); self.reader = None] *)
Definition stop_reader (w : Window) : Window :=
  {| core := core w; boxes := boxes w; port_var := port_var w;
     serial_module := serial_module w; reader := None;
     started := started w; stops := S (stops w) |}.

(** What a handler of a button does: it returns, or raises an exception
    of the store, or raises [TypeError]. *)
Inductive outcome :=
| Returns
| Raises (e : exn)
| RaisesTypeError.

(** A handler of [App] run from a button. *)
Definition in_app (m : M unit) (w : Window) : outcome * Window :=
  match m (core w) with
  | (Ok _, a') => (Returns, set_core a' w)
  | (Raise e, a') => (Raises e, set_core a' w)
  end.

(** [f"{v}"] *)
Definition format (v : pyval) : str :=
  match v with
  | Some s => s
  | None => py "None"
  end.

Section Buttons.
Context {U : UnicodeData}.
Local Open Scope handler_scope.

Definition form_new : M unit :=
  modify (set_uid_var []) ;;
  modify (fun a =>
    {| users := users a; logs := logs a;
       uid_detected_var := uid_detected_var a; uid_var := uid_var a;
       nama_var := []; umur_var := []; serial_queue := serial_queue a;
       bells := bells a; dialogs := dialogs a; files := files a;
       wall_clock := wall_clock a; clock_reads := clock_reads a |}).

Definition assign_uid_to_form : M unit :=
  a <- get ;;
  let uid_ := uid_detected_var a in
  if negb (truthy uid_) || str_eqb uid_ (py "-") then
    modify (show (showinfo "Info" "Belum ada UID terdeteksi."))
  else modify (set_uid_var uid_).

Definition connect (w : Window) : outcome * Window :=
  match reader w with
  | Some _ => (Returns, add_box (info_box "Info" (py "Sudah terhubung.")) w)
  | None =>
      let port_ := port_var w in
      if negb (truthy port_) then
        (Returns,
         add_box (error_box "Error" (py "Pilih COM port terlebih dahulu.")) w)
      else if negb (serial_module w) then
        (Returns,
         add_box (error_box "Error"
           (py "pyserial belum terpasang. Jalankan: pip install pyserial")) w)
      else
        (Returns,
         add_box (info_box "Serial" (py "Terhubung ke " ++ port_))
           (start_reader {| port := port_; baud := BAUDRATE |} w))
  end.

Definition disconnect (w : Window) : outcome * Window :=
  match reader w with
  | Some _ =>
      (Returns, add_box (info_box "Serial" (py "Terputus")) (stop_reader w))
  | None => (Returns, w)
  end.

(** [CsvStore.append_log(uid, nama); self.refresh_tables()] *)
Definition log_attendance (uid_ : str) (nama_ : pyval) : M unit :=
  append_log_M uid_ nama_ ;;
  refresh_tables.

(** The end of the two attendance buttons:
    [append_log(uid, user["nama"]); refresh_tables(); showinfo(...)], where
    [user["nama"]] raises [TypeError] when [user] is [None]. *)
Definition log_and_tell (uid_ : str) (user_ : option user) (w : Window)
  : outcome * Window :=
  match user_ with
  | None => (RaisesTypeError, w)
  | Some u =>
      match in_app (log_attendance uid_ (nama u)) w with
      | (Returns, w') =>
          (Returns,
           add_box (info_box "Absen"
                      (py "Absensi tercatat untuk " ++ format (nama u))) w')
      | r => r
      end
  end.

Definition absen_uid_terdeteksi (w : Window) : outcome * Window :=
  let uid_ := uid_detected_var (core w) in
  if negb (truthy uid_) || str_eqb uid_ (py "-") then
    (Returns, add_box (info_box "Info" (py "Belum ada UID terdeteksi.")) w)
  else
    match find_user_by_uid (users (core w)) uid_ with
    | None =>
        (Returns,
         set_core (set_uid_var uid_ (core w))
           (add_box (warning_box "Tidak Terdaftar"
              (py "UID belum terdaftar. Daftarkan dulu di form pengguna.")) w))
    | Some u => log_and_tell uid_ (Some u) w
    end.

Definition absen_user_on_form (w : Window) : outcome * Window :=
  let uid_ := normalize_uid (uid_var (core w)) in
  if negb (truthy uid_) then
    (Returns, add_box (error_box "Error" (py "Form belum berisi UID.")) w)
  else
    match find_user_by_uid (users (core w)) uid_ with
    | Some u => log_and_tell uid_ (Some u) w
    | None =>
        if negb (truthy (strip (nama_var (core w)))) then
          (Returns,
           add_box (warning_box "Tidak Terdaftar"
              (py "Isi nama & simpan terlebih dahulu, lalu absen.")) w)
        else
          match in_app form_save w with
          | (Returns, w') =>
              log_and_tell uid_ (find_user_by_uid (users (core w')) uid_) w'
          | r => r
          end
    end.

End Buttons.

(** A click on a connection button. *)
Inductive click := Connect | Disconnect.

Definition do_click (c : click) (w : Window) : Window :=
  match c with
  | Connect => snd (connect w)
  | Disconnect => snd (disconnect w)
  end.

(** The reader that the window holds, counted. *)
Definition holds (w : Window) : nat :=
  match reader w with
  | Some _ => 1
  | None => 0
  end.

(** The window is around [a] with the port [port_] chosen, every worker
    started but the one it holds was stopped, and every worker was started
    on that port, which is not empty, at [BAUDRATE]. *)
Definition wired (a : App) (port_ : str) (w : Window) : Prop :=
  core w = a /\ port_var w = port_ /\
  List.length (started w) = (stops w + holds w)%nat /\
  Forall (fun r => r = {| port := port_; baud := BAUDRATE |} /\ port_ <> [])
         (started w).

(** A window just opened around [a]. *)
Definition open_window (a : App) (port_ : str) (installed : bool) : Window :=
  {| core := a; boxes := []; port_var := port_; serial_module := installed;
     reader := None; started := []; stops := 0 |}.

(** ** The LED panel, [arduino_control.py]

    The panel holds the two switches and the serial port, of which only
    the bytes written matter.  A click on a check button flips its
    variable and then runs its command; a click on a push button runs its
    command. *)

Record panel := {
  red_var : bool;
  green_var : bool;
  written : list N       (* the bytes of arduino.write, oldest first *)
}.

Definition arduino_write (b : N) (p : panel) : panel :=
  {| red_var := red_var p; green_var := green_var p;
     written := written p ++ [b] |}.

Definition toggle_red (p : panel) : panel :=
  if red_var p then arduino_write 82 p    (* b'R' *)
  else arduino_write 114 p.               (* b'r' *)

Definition toggle_green (p : panel) : panel :=
  if green_var p then arduino_write 71 p  (* b'G' *)
  else arduino_write 103 p.               (* b'g' *)

Definition blink_mode (p : panel) : panel := arduino_write 66 p.    (* b'B' *)
Definition speed_up (p : panel) : panel := arduino_write 83 p.      (* b'S' *)
Definition default_speed (p : panel) : panel := arduino_write 68 p. (* b'D' *)

Inductive press :=
| RedSwitch | GreenSwitch | BlinkButton | SpeedUpButton | DefaultButton.

Definition pressed (e : press) (p : panel) : panel :=
  match e with
  | RedSwitch =>
      toggle_red {| red_var := negb (red_var p); green_var := green_var p;
                    written := written p |}
  | GreenSwitch =>
      toggle_green {| red_var := red_var p; green_var := negb (green_var p);
                      written := written p |}
  | BlinkButton => blink_mode p
  | SpeedUpButton => speed_up p
  | DefaultButton => default_speed p
  end.

(** The panel when the program starts: both switches off, nothing
    written. *)
Definition panel0 : panel :=
  {| red_var := false; green_var := false; written := [] |}.

(** The last byte of [l] that is one of [on] and [off]. *)
Fixpoint last_of (on off : N) (l : list N) : option N :=
  match l with
  | [] => None
  | b :: l' =>
      match last_of on off l' with
      | Some c => Some c
      | None => if (b =? on)%N || (b =? off)%N then Some b else None
      end
  end.

(** ** Saving on a device that can fail

    [save_users] above fails where [open] fails.  Once the file is open
    (and, with the mode ["w"], empty) a write can fail too, when the device
    is full: the exception leaves [save_users] with the file holding what
    reached it.  [save_users_on] is [save_users] with the device made
    explicit, and [form_save_on] and [delete_user_on] are the two handlers
    on it; on a sound device they are the definitions above. *)

Inductive device :=
| Sound
    (* every write succeeds *)
| FailsAfter (k : nat) (torn : list row).
    (* the device is full once [k] rows are written; [torn] is what the
       file holds of the row that was cut *)

Section FailingDevice.
Context {U : UnicodeData}.
Local Open Scope handler_scope.

Definition save_users_on (dev : device) (users : list user) (d : disk)
  : result unit * disk :=
  match open_w USERS_CSV (users_csv d) with
  | Raise e => (Raise e, d)
  | Ok f =>
      let f := f ++ [users_header] in
      let f := f ++ map user_row users in
      match dev with
      | Sound =>
          (Ok tt, {| users_csv := File true f; log_csv := log_csv d |})
      | FailsAfter k torn =>
          (Raise OSError,
           {| users_csv := File true (firstn k f ++ torn);
              log_csv := log_csv d |})
      end
  end.

(** [CsvStore.save_users(self.users)] *)
Definition save_users_M_on (dev : device) : M unit :=
  fun a =>
    let (r, d) := save_users_on dev (users a) (files a) in
    (r, set_files d a).

Definition form_save_on (dev : device) : M unit :=
  a <- get ;;
  let uid_ := normalize_uid (uid_var a) in
  let nama_ := strip (nama_var a) in
  let umur_ := strip (umur_var a) in
  if negb (truthy uid_) || negb (truthy nama_) then
    modify (show (showerror "Error" "UID dan Nama wajib diisi."))
  else
    (match find_user_by_uid (users a) uid_ with
     | Some _ =>
         modify (set_users (update_users uid_ nama_ umur_ (users a))) ;;
         save_users_M_on dev ;;
         modify (show (showinfo "Sukses" "Data pengguna diperbarui."))
     | None =>
         modify (set_users
           (users a ++
            [{| uid := uid_; nama := Some nama_; umur := Some umur_ |}])) ;;
         save_users_M_on dev ;;
         modify (show (showinfo "Sukses" "Pengguna baru ditambahkan."))
     end ;;
     refresh_tables).

Definition delete_user_on (dev : device) (sel : option str) (yes : bool)
  : M unit :=
  match sel with
  | None => modify (show (showerror "Error" "Pilih data yang akan dihapus."))
  | Some v =>
      let uid_ := normalize_uid v in
      if yes then
        a <- get ;;
        modify (set_users
          (filter (fun u => negb (str_eqb (normalize_uid (uid u)) uid_))
                  (users a))) ;;
        save_users_M_on dev ;;
        refresh_tables
      else ret tt
  end.

End FailingDevice.

(** ** The identifiers the program holds

    Every identifier enters [self.users] through [upper()]: as
    [row["uid"].strip().upper()] in [load_users], as [normalize_uid(...)]
    in [form_save].  Such an identifier is left as it is by [upper()] and
    by [strip()], by three facts of the Unicode database on upper-casing,
    true of every code point: upper-casing the upper-case form changes
    nothing, the upper-case form of a letter or digit holds no white
    space, and the upper-case form of a character that is not white space
    is not empty and holds no white space. *)

Section HeldIdentifiers.
Context {U : UnicodeData}.

Definition upper_idempotent : Prop :=
  forall c : char, upper (upper_char c) = upper_char c.

Definition upper_alnum_no_space : Prop :=
  forall c d : char,
    isalnum c = true -> In d (upper_char c) -> isspace d = false.

Definition upper_keeps_non_space : Prop :=
  forall c : char,
    isspace c = false ->
    upper_char c <> [] /\
    forall d : char, In d (upper_char c) -> isspace d = false.

(** An identifier as the program holds it. *)
Definition held_uid (u : user) : Prop :=
  upper (uid u) = uid u /\ strip (uid u) = uid u.

End HeldIdentifiers.

(** A window that holds the profile of identifier J + U+030C and Alice,
    and a form filled for a third profile. *)
Definition j_caron_window : App :=
  window [ {| uid := [74%N; 780%N]; nama := Some (py "Joko"); umur := Some [] |};
           alice ]
         (py "k-1") (py "Kiki") []
         {| users_csv := Absent; log_csv := Absent |}.


(** ** Vocabulary of the further properties *)

(** The user types [n] into the field of the name. *)
Definition type_name (n : str) (a : App) : App :=
  {| users := users a; logs := logs a;
     uid_detected_var := uid_detected_var a; uid_var := uid_var a;
     nama_var := n; umur_var := umur_var a;
     serial_queue := serial_queue a; bells := bells a; dialogs := dialogs a;
     files := files a; wall_clock := wall_clock a;
     clock_reads := clock_reads a |}.

(** Files in order that hold Alice and no record, and a window on them. *)
Definition alice_disk : disk :=
  {| users_csv := File true [users_header; [py "AB12CD"; py "Alice"; py "30"]];
     log_csv := log_file true [] |}.

Definition alice_window (u n : str) : App := window [alice] u n [] alice_disk.

Section MoreVocabulary.
Context {U : UnicodeData}.

(** A string without white space at either end. *)
Definition trimmed (s : str) : bool :=
  match s with
  | [] => true
  | c :: _ => negb (isspace c) && negb (isspace (last s c))
  end.

(** No letter of [a-z]. *)
Definition no_lower (s : str) : bool :=
  forallb (fun c => negb (is_lower_az c)) s.

(** The identifiers that the worker publishes for the lines it reads: the
    normal forms that are not empty, in the order of the lines. *)
Definition uids_of_lines (texts : list str) : list str :=
  filter truthy (map (fun text => normalize_uid (strip text)) texts).

(** The records that a tick writes for the identifiers [q] it drains,
    with the profiles [us] and the clock read from its [n]-th reading on:
    one for each identifier that is not empty and has a profile. *)
Fixpoint attendance_of (us : list user) (clock : nat -> str) (n : nat)
  (q : list str) : list AttendanceRecord :=
  match q with
  | [] => []
  | x :: r =>
      if truthy x then
        match find_user_by_uid us x with
        | Some u => logged x (nama u) (clock n) :: attendance_of us clock (S n) r
        | None => attendance_of us clock n r
        end
      else attendance_of us clock n r
  end.

(** The identifiers of [q] that are not empty and have no profile. *)
Definition unknown_of (us : list user) (q : list str) : list str :=
  filter (fun x => truthy x &&
                   match find_user_by_uid us x with
                   | Some _ => false
                   | None => true
                   end) q.

(** Registering an identifier that was scanned and found unknown: the
    scan, then the buttons [Tambah Baru] and [Assign UID ke Form], the name
    [n] typed into the form, and the button [Simpan/Update]. *)
Definition register_scanned (x n : str) (a : App) : App :=
  let a1 := snd (drain [x] a) in
  let a2 := snd (assign_uid_to_form (snd (form_new a1))) in
  snd (form_save (type_name n a2)).

(** The form passes the check of [form_save]. *)
Definition form_filled (a : App) : Prop :=
  normalize_uid (uid_var a) <> [] /\ strip (nama_var a) <> [].

(** A profile as the store keeps it: an ASCII identifier in upper case
    without white space around it, a name and an age that are strings. *)
Definition stored_profile (u : user) : bool :=
  is_ascii_str (uid u) && no_lower (uid u) && trimmed (uid u) &&
  match nama u, umur u with
  | Some _, Some _ => true
  | _, _ => false
  end.

End MoreVocabulary.

(** The lines that the turns of the worker read are ASCII text. *)
Definition ascii_turn (t : turn) : bool :=
  match t with
  | ReadLine text => is_ascii_str text
  | _ => true
  end.

(** A turn that ends the loop. *)
Definition ends_loop (t : turn) : bool :=
  match t with
  | ReadLine _ => false
  | _ => true
  end.

(** Every cell of every row is ASCII text. *)
Definition ascii_rows (rows : list row) : bool :=
  forallb (forallb is_ascii_str) rows.

(** ** Facts on strings *)

Lemma str_eqb_eq (a b : str) : str_eqb a b = true <-> a = b.
Proof.
  revert b; induction a as [|x a IH]; intros [|y b]; simpl; split;
    try congruence; try reflexivity.
  - intros H. apply andb_true_iff in H as [Hx Hr].
    apply N.eqb_eq in Hx. apply IH in Hr. congruence.
  - intros E. injection E as -> ->. rewrite N.eqb_refl. simpl. now apply IH.
Qed.

Lemma str_eqb_refl (a : str) : str_eqb a a = true.
Proof. now apply str_eqb_eq. Qed.

Lemma str_eqb_neq (a b : str) : str_eqb a b = false <-> a <> b.
Proof.
  split.
  - intros H E. apply str_eqb_eq in E. congruence.
  - intros H. destruct (str_eqb a b) eqn:E; [|reflexivity].
    apply str_eqb_eq in E. contradiction.
Qed.

(** A boolean property of the ASCII characters is settled by running it
    on the 128 of them. *)
Lemma ascii_cases (P : char -> bool) :
  forallb P (map N.of_nat (seq 0 128)) = true ->
  forall c, is_ascii c = true -> P c = true.
Proof.
  intros H c Hc. rewrite forallb_forall in H. apply H.
  unfold is_ascii in Hc. apply N.ltb_lt in Hc.
  rewrite <- (N2Nat.id c). apply in_map. apply in_seq. lia.
Qed.

Section StringFacts.
Context {U : UnicodeData}.

Lemma upper_app (a b : str) : upper (a ++ b) = upper a ++ upper b.
Proof. unfold upper. apply flat_map_app. Qed.

Lemma upper_char_ascii (c : char) :
  is_ascii c = true -> upper_char c = [ascii_upper c].
Proof. intros Hc. unfold upper_char. now rewrite Hc. Qed.

Lemma ascii_upper_ascii (c : char) :
  is_ascii c = true -> is_ascii (ascii_upper c) = true.
Proof. revert c. apply ascii_cases. now vm_compute. Qed.

Lemma ascii_upper_idem (c : char) :
  is_ascii c = true -> ascii_upper (ascii_upper c) = ascii_upper c.
Proof.
  intros Hc. apply N.eqb_eq. revert c Hc. apply ascii_cases. now vm_compute.
Qed.

Lemma isalnum_ascii_upper (c : char) :
  is_ascii c = true -> isalnum (ascii_upper c) = isalnum c.
Proof.
  intros Hc. apply eqb_prop. revert c Hc. apply ascii_cases. now vm_compute.
Qed.

Lemma isspace_ascii_upper (c : char) :
  is_ascii c = true -> isspace (ascii_upper c) = isspace c.
Proof.
  intros Hc. apply eqb_prop. revert c Hc. apply ascii_cases. now vm_compute.
Qed.

Lemma isalnum_upper_alnum (c : char) :
  is_ascii c = true -> isalnum c = true -> is_upper_alnum (ascii_upper c) = true.
Proof.
  intros Hc Ha.
  pose proof (ascii_cases
    (fun c => implb (isalnum c) (is_upper_alnum (ascii_upper c)))
    ltac:(now vm_compute) c Hc) as E.
  simpl in E. now rewrite Ha in E.
Qed.

Lemma isspace_not_alnum (c : char) :
  is_ascii c = true -> isspace c = true -> isalnum c = false.
Proof.
  intros Hc Hs.
  pose proof (ascii_cases (fun c => implb (isspace c) (negb (isalnum c)))
    ltac:(now vm_compute) c Hc) as E.
  simpl in E. rewrite Hs in E. now apply negb_true_iff.
Qed.

End StringFacts.

(** ** The normalizer on ASCII text *)

Section NormalizeAscii.
Context {U : UnicodeData}.

Lemma upper_ascii (s : str) :
  is_ascii_str s = true -> upper s = map ascii_upper s.
Proof.
  induction s as [|c s IH]; simpl; [reflexivity|].
  intros H. apply andb_true_iff in H as [Hc Hs].
  now rewrite (upper_char_ascii _ Hc), IH.
Qed.

Lemma map_ascii_upper_ascii (s : str) :
  is_ascii_str s = true -> is_ascii_str (map ascii_upper s) = true.
Proof.
  induction s as [|c s IH]; simpl; [reflexivity|].
  intros H. apply andb_true_iff in H as [Hc Hs].
  now rewrite (ascii_upper_ascii _ Hc), IH.
Qed.

Lemma filter_ascii (f : char -> bool) (s : str) :
  is_ascii_str s = true -> is_ascii_str (filter f s) = true.
Proof.
  induction s as [|c s IH]; simpl; [reflexivity|].
  intros H. apply andb_true_iff in H as [Hc Hs].
  destruct (f c); simpl; [rewrite Hc|]; now apply IH.
Qed.

Lemma filter_isalnum_upper (s : str) :
  is_ascii_str s = true ->
  filter isalnum (map ascii_upper s) = map ascii_upper (filter isalnum s).
Proof.
  induction s as [|c s IH]; simpl; [reflexivity|].
  intros H. apply andb_true_iff in H as [Hc Hs].
  rewrite (isalnum_ascii_upper _ Hc), (IH Hs).
  now destruct (isalnum c).
Qed.

Lemma filter_filter (f : char -> bool) (s : str) :
  filter f (filter f s) = filter f s.
Proof.
  induction s as [|c s IH]; simpl; [reflexivity|].
  destruct (f c) eqn:E; simpl; [rewrite E|]; now rewrite ?IH.
Qed.

Lemma map_ascii_upper_idem (s : str) :
  is_ascii_str s = true ->
  map ascii_upper (map ascii_upper s) = map ascii_upper s.
Proof.
  induction s as [|c s IH]; simpl; [reflexivity|].
  intros H. apply andb_true_iff in H as [Hc Hs].
  now rewrite (ascii_upper_idem _ Hc), IH.
Qed.

(** On ASCII text the normalizer keeps the letters and digits and moves
    the letters to upper case, character by character. *)
Lemma normalize_uid_ascii (x : str) :
  is_ascii_str x = true ->
  normalize_uid x = map ascii_upper (filter isalnum x).
Proof.
  intros H. unfold normalize_uid. apply upper_ascii. now apply filter_ascii.
Qed.

Lemma normalize_uid_ascii_str (x : str) :
  is_ascii_str x = true -> is_ascii_str (normalize_uid x) = true.
Proof.
  intros H. rewrite (normalize_uid_ascii _ H).
  apply map_ascii_upper_ascii. now apply filter_ascii.
Qed.

(** C1, as amended: on every ASCII input string the normalizer is
    idempotent, [normalize_uid (normalize_uid x) = normalize_uid x]. *)
Theorem normalize_uid_idempotent_ascii (x : str) :
  is_ascii_str x = true ->
  normalize_uid (normalize_uid x) = normalize_uid x.
Proof.
  intros H.
  rewrite (normalize_uid_ascii _ (normalize_uid_ascii_str _ H)).
  rewrite (normalize_uid_ascii _ H).
  assert (Hf : is_ascii_str (filter isalnum x) = true)
    by now apply filter_ascii.
  rewrite (filter_isalnum_upper _ Hf), filter_filter.
  now apply map_ascii_upper_idem.
Qed.

(** C2, as amended: on every ASCII input string each character of the
    result is one of [A-Z] and [0-9]. *)
Theorem normalize_uid_upper_alnum_ascii (x : str) :
  is_ascii_str x = true ->
  forallb is_upper_alnum (normalize_uid x) = true.
Proof.
  intros H. rewrite (normalize_uid_ascii _ H).
  induction x as [|c x IH]; simpl; [reflexivity|].
  simpl in H. apply andb_true_iff in H as [Hc Hx].
  destruct (isalnum c) eqn:Ea; simpl.
  - rewrite (isalnum_upper_alnum _ Hc Ea). now apply IH.
  - now apply IH.
Qed.

End NormalizeAscii.

Lemma normalize_uid_idempotent_ascii_witness :
  normalize_uid (U:=ucd_j_caron) (normalize_uid scan_ab12cd)
  = normalize_uid scan_ab12cd.
Proof.
  apply (normalize_uid_idempotent_ascii (U:=ucd_j_caron) scan_ab12cd).
  reflexivity.
Defined.

Lemma normalize_uid_upper_alnum_ascii_witness :
  forallb is_upper_alnum (normalize_uid (U:=ucd_j_caron) scan_ab12cd) = true.
Proof.
  apply (normalize_uid_upper_alnum_ascii (U:=ucd_j_caron) scan_ab12cd).
  reflexivity.
Defined.

(** C1 fails on U+01F0: its upper-case form J + U+030C loses the
    combining caron when normalized again. *)
Lemma normalize_uid_not_idempotent :
  normalize_uid (U:=ucd_j_caron) [496%N] = [74%N; 780%N] /\
  normalize_uid (U:=ucd_j_caron) (normalize_uid (U:=ucd_j_caron) [496%N])
  <> normalize_uid (U:=ucd_j_caron) [496%N].
Proof. split; [reflexivity | discriminate]. Qed.

(** C2 fails on U+01F0: the result holds U+030C, which is neither in
    [A-Z0-9] nor alphanumeric for [str.isalnum]. *)
Lemma normalize_uid_not_upper_alnum :
  exists c, In c (normalize_uid (U:=ucd_j_caron) [496%N]) /\
            is_upper_alnum c = false /\ isalnum (U:=ucd_j_caron) c = false.
Proof. exists 780%N. repeat split. simpl. auto. Qed.

(** ** The serial worker *)

Section WorkerFacts.
Context {U : UnicodeData}.

Lemma truthy_nonempty (s : str) : truthy s = true <-> s <> [].
Proof. destruct s; simpl; split; congruence. Qed.

Lemma published_by_cons (t : turn) (turns : list turn) (new : list str) :
  Forall (published_by turns) new -> Forall (published_by (t :: turns)) new.
Proof.
  apply Forall_impl. intros u (Hu & text & Hin & Hl & E).
  split; [assumption|]. exists text. simpl. auto.
Qed.

Lemma run_loop_queue (turns : list turn) :
  forall q errs, exists new,
    fst (fst (run_loop turns q errs)) = q ++ new /\
    Forall (published_by turns) new.
Proof.
  induction turns as [|t turns IH]; intros q errs.
  - exists []. simpl. now rewrite app_nil_r.
  - destruct t as [|text|e]; simpl.
    + exists []. now rewrite app_nil_r.
    + destruct (truthy (strip text)) eqn:El.
      * destruct (truthy (normalize_uid (strip text))) eqn:Eu.
        -- destruct (IH (q ++ [normalize_uid (strip text)]) errs)
             as (new & E & Hnew).
           exists (normalize_uid (strip text) :: new). split.
           ++ rewrite E, <- app_assoc. reflexivity.
           ++ constructor.
              ** split; [now apply truthy_nonempty|].
                 exists text. repeat split; simpl; auto.
                 now apply truthy_nonempty.
              ** now apply published_by_cons.
        -- destruct (IH q errs) as (new & E & Hnew).
           exists new. split; [assumption | now apply published_by_cons].
      * destruct (IH q errs) as (new & E & Hnew).
        exists new. split; [assumption | now apply published_by_cons].
    + exists []. now rewrite app_nil_r.
Qed.

(** C9: whatever the port does, the worker appends to the queue only
    non-empty identifiers, each the normal form of a line read that was not
    empty once stripped; and a line read is published exactly when it and
    its normal form are not empty. *)
Theorem run_never_publishes_empty
  (port : str) (open_fails : option str) (turns : list turn) (q : list str) :
  (exists new, out_queue (run port open_fails turns q) = q ++ new /\
               Forall (published_by turns) new) /\
  (forall text rest errs,
     run_loop (ReadLine text :: rest) q errs =
     run_loop rest
       (if truthy (strip text) && truthy (normalize_uid (strip text))
        then q ++ [normalize_uid (strip text)] else q) errs).
Proof.
  split.
  - unfold run. destruct open_fails as [e|].
    + exists []. simpl. now rewrite app_nil_r.
    + destruct (run_loop_queue turns q []) as (new & E & Hnew).
      exists new. split; [|assumption].
      destruct (run_loop turns q []) as [[q' errs] done]. exact E.
  - intros text rest errs. simpl.
    destruct (truthy (strip text)); simpl; [|reflexivity].
    now destruct (truthy (normalize_uid (strip text))).
Qed.

End WorkerFacts.

(** ** The record store *)

Section StoreFacts.
Context {U : UnicodeData}.

Lemma open_a_writable (n : node) :
  read_only n = false ->
  open_a LOG_CSV n = Ok (content n).
Proof. destruct n as [|[|] rows]; simpl; congruence. Qed.

(** [ensure_files] creates the files that are absent, with their header,
    and changes nothing when run again. *)
Lemma ensure_files_creates (d : disk) :
  users_csv d = Absent -> log_csv d = Absent ->
  ensure_files d =
  {| users_csv := File true [users_header]; log_csv := log_file true [] |}.
Proof.
  destruct d as [u l]. simpl. intros -> ->. reflexivity.
Qed.

Lemma ensure_files_idempotent (d : disk) :
  ensure_files (ensure_files d) = ensure_files d.
Proof.
  destruct d as [[|wu ru] [|wl rl]]; reflexivity.
Qed.

(** The log after a successful [append_log]. *)
Lemma append_log_rows (uid_ : str) (nama_ : pyval) (waktu : str) (d : disk) :
  read_only (log_csv d) = false ->
  append_log uid_ nama_ waktu d =
  Ok {| users_csv := users_csv d;
        log_csv := File true
          ((if tell_is_0 (content (log_csv d))
            then content (log_csv d) ++ [log_header]
            else content (log_csv d))
           ++ [record_row (logged uid_ nama_ waktu)]) |}.
Proof.
  intros H. unfold append_log. now rewrite (open_a_writable _ H).
Qed.

(** C10: appending to a log of zero bytes (absent, or present and empty)
    writes the header and then the record; appending to a log that has
    rows adds the record only, so that a header followed by records stays
    one. *)
Theorem append_log_writes_header_once
  (uid_ : str) (nama_ : pyval) (waktu : str) (d : disk) :
  read_only (log_csv d) = false ->
  exists d',
    append_log uid_ nama_ waktu d = Ok d' /\
    users_csv d' = users_csv d /\
    (content (log_csv d) = [] ->
     log_csv d' = File true [log_header; record_row (logged uid_ nama_ waktu)]) /\
    (content (log_csv d) <> [] ->
     log_csv d' =
     File true (content (log_csv d) ++ [record_row (logged uid_ nama_ waktu)])) /\
    (forall recs, content (log_csv d) = log_header :: map record_row recs ->
     log_csv d' = log_file true (recs ++ [logged uid_ nama_ waktu])).
Proof.
  intros H. eexists. split; [apply (append_log_rows _ _ _ _ H)|].
  simpl. split; [reflexivity|]. repeat split.
  - intros E. now rewrite E.
  - intros E. destruct (content (log_csv d)); [contradiction | reflexivity].
  - intros recs E. rewrite E. unfold log_file. simpl.
    now rewrite map_app.
Qed.

Lemma row_dict_log (r : AttendanceRecord) :
  row_dict log_header (record_row r) = record_dict r.
Proof. reflexivity. Qed.

Lemma DictReader_log (recs : list AttendanceRecord) :
  DictReader (log_header :: map record_row recs) = map record_dict recs.
Proof.
  simpl. induction recs as [|r recs IH]; simpl; [reflexivity|].
  now rewrite IH.
Qed.

Lemma slice_from_last {A} (n : Z) (l : list A) :
  (1 <= n)%Z ->
  slice_from (- n) l = lastn (Nat.min (Z.to_nat n) (List.length l)) l.
Proof.
  intros Hn. unfold slice_from, lastn.
  replace (- n <? 0)%Z with true by (symmetry; apply Z.ltb_lt; lia).
  f_equal. lia.
Qed.

Lemma lastn_map {A B} (f : A -> B) (k : nat) (l : list A) :
  lastn k (map f l) = map f (lastn k l).
Proof. unfold lastn. now rewrite length_map, skipn_map. Qed.

Lemma lastn_length {A} (k : nat) (l : list A) :
  List.length (lastn k l) = Nat.min k (List.length l).
Proof. unfold lastn. rewrite length_skipn. lia. Qed.

(** C8, as amended: on a stored log, [load_logs] without a limit returns
    all the records in the order of the file, which is the order in which
    [append_log] added them, and [load_logs] with a limit [n >= 1] returns
    the last [min n length] of them in that order; the limit 0 is no
    limit. *)
Theorem load_logs_most_recent
  (recs : list AttendanceRecord) (w : bool) (us : node) (n : Z) :
  (1 <= n)%Z ->
  let d := {| users_csv := us; log_csv := log_file w recs |} in
  let k := Nat.min (Z.to_nat n) (List.length recs) in
  load_logs None d = Ok (map record_dict recs) /\
  load_logs (Some n) d = Ok (map record_dict (lastn k recs)) /\
  List.length (lastn k recs) = k /\
  load_logs (Some 0%Z) d = Ok (map record_dict recs) /\
  (forall uid_ nama_ waktu, w = true ->
     exists d', append_log uid_ nama_ waktu d = Ok d' /\
       load_logs None d' =
       Ok (map record_dict (recs ++ [logged uid_ nama_ waktu]))).
Proof.
  intros Hn d k. unfold load_logs, log_file. simpl open_r. unfold rbind.
  rewrite DictReader_log. repeat split.
  - replace (n =? 0)%Z with false by (symmetry; apply Z.eqb_neq; lia).
    rewrite (slice_from_last _ _ Hn), lastn_map, length_map. reflexivity.
  - rewrite lastn_length. subst k. lia.
  - intros uid_ nama_ waktu ->. eexists. split.
    + apply append_log_rows. reflexivity.
    + simpl. rewrite <- (DictReader_log (recs ++ _)).
      now rewrite map_app.
Qed.

End StoreFacts.

Lemma append_log_writes_header_once_witness :
  exists d',
    append_log (U:=ucd_j_caron) (py "ab12cd") (Some (py "Alice"))
      (py "2024-05-01 08:00:00") {| users_csv := Absent; log_csv := Absent |}
    = Ok d' /\
    log_csv d' =
    File true [log_header;
               [py "AB12CD"; py "Alice"; py "2024-05-01 08:00:00"]].
Proof.
  destruct (append_log_writes_header_once (U:=ucd_j_caron)
              (py "ab12cd") (Some (py "Alice")) (py "2024-05-01 08:00:00")
              {| users_csv := Absent; log_csv := Absent |} eq_refl)
    as (d' & E & _ & H0 & _).
  exists d'. split; [exact E | exact (H0 eq_refl)].
Defined.

Lemma load_logs_most_recent_witness :
  load_logs (Some 1%Z)
    {| users_csv := Absent; log_csv := log_file true two_records |}
  = Ok (map record_dict (lastn 1 two_records)).
Proof.
  exact (proj1 (proj2 (load_logs_most_recent (U:=ucd_j_caron)
           two_records true Absent 1%Z ltac:(lia)))).
Defined.

(** C8 fails at [N = 0]: the limit 0 is taken for no limit and all the
    records come back, where the last 0 records are none. *)
Lemma load_logs_limit_0 :
  load_logs (Some 0%Z)
    {| users_csv := Absent; log_csv := log_file true two_records |}
  = Ok (map record_dict two_records) /\
  load_logs (Some 0%Z)
    {| users_csv := Absent; log_csv := log_file true two_records |}
  <> Ok (map record_dict
           (lastn (Nat.min 0 (List.length two_records)) two_records)).
Proof. split; [reflexivity | discriminate]. Qed.

(** ** Saving and loading the profiles *)

Section RoundTrip.
Context {U : UnicodeData}.

Lemma is_ascii_str_app (a b : str) :
  is_ascii_str (a ++ b) = is_ascii_str a && is_ascii_str b.
Proof. apply forallb_app. Qed.

Lemma is_ascii_str_rev (s : str) :
  is_ascii_str s = true -> is_ascii_str (rev s) = true.
Proof.
  induction s as [|c s IH]; simpl; [reflexivity|].
  intros H. apply andb_true_iff in H as [Hc Hs].
  rewrite is_ascii_str_app, (IH Hs). simpl. now rewrite Hc.
Qed.

Lemma lstrip_ascii (s : str) :
  is_ascii_str s = true ->
  is_ascii_str (lstrip s) = true /\
  filter isalnum (lstrip s) = filter isalnum s.
Proof.
  induction s as [|c s IH]; simpl; [auto|].
  intros H. pose proof H as Hcs. apply andb_true_iff in H as [Hc Hs].
  destruct (isspace c) eqn:Es.
  - rewrite (isspace_not_alnum _ Hc Es). now apply IH.
  - split; [exact Hcs | reflexivity].
Qed.

Lemma strip_ascii (s : str) :
  is_ascii_str s = true ->
  is_ascii_str (strip s) = true /\
  filter isalnum (strip s) = filter isalnum s.
Proof.
  intros H. destruct (lstrip_ascii _ H) as [Hl El].
  destruct (lstrip_ascii _ (is_ascii_str_rev _ Hl)) as [Hr Er].
  unfold strip, rstrip. split.
  - now apply is_ascii_str_rev.
  - rewrite filter_rev, Er, <- filter_rev, rev_involutive. exact El.
Qed.

(** On an ASCII identifier, what [save_users] and [load_users] do to it
    ([upper], then [strip] and [upper]) keeps its normal form. *)
Lemma normalize_uid_reloaded (x : str) :
  is_ascii_str x = true ->
  normalize_uid (upper (strip (upper x))) = normalize_uid x /\
  is_ascii_str (upper (strip (upper x))) = true.
Proof.
  intros H. rewrite (upper_ascii _ H).
  pose proof (map_ascii_upper_ascii _ H) as Hy.
  destruct (strip_ascii _ Hy) as [Hs Es].
  rewrite (upper_ascii _ Hs).
  pose proof (map_ascii_upper_ascii _ Hs) as Hz.
  split; [|exact Hz].
  rewrite (normalize_uid_ascii _ Hz), (normalize_uid_ascii _ H).
  rewrite (filter_isalnum_upper _ Hs), Es, (filter_isalnum_upper _ H).
  assert (Hf : is_ascii_str (filter isalnum x) = true)
    by now apply filter_ascii.
  now rewrite !(map_ascii_upper_idem _ Hf).
Qed.

Lemma load_user_saved (u : user) :
  load_user (row_dict users_header (user_row u)) = Ok (reloaded u).
Proof. reflexivity. Qed.

Lemma rmap_load_user_saved (us : list user) :
  rmap load_user (map (row_dict users_header) (map user_row us))
  = Ok (map reloaded us).
Proof.
  induction us as [|u us IH]; [reflexivity|].
  cbn [map rmap]. rewrite load_user_saved, IH. reflexivity.
Qed.

Lemma filter_user_rows (us : list user) :
  filter (fun r => negb (is_blank r)) (map user_row us) = map user_row us.
Proof.
  induction us as [|u us IH]; simpl; [reflexivity|]. now rewrite IH.
Qed.

(** The file after a successful [save_users], and what [load_users] then
    returns. *)
Lemma save_users_file (us : list user) (d d' : disk) :
  save_users us d = Ok d' ->
  d' = {| users_csv := File true (users_header :: map user_row us);
          log_csv := log_csv d |}.
Proof.
  unfold save_users. destruct (open_w USERS_CSV (users_csv d)) eqn:E;
    simpl; [|discriminate].
  destruct (users_csv d) as [|[|] rows]; simpl in E; try discriminate;
    injection E as <-; simpl; congruence.
Qed.

Lemma load_users_saved (us : list user) (d d' : disk) :
  save_users us d = Ok d' ->
  load_users d' = Ok (map reloaded us).
Proof.
  intros H. rewrite (save_users_file _ _ _ H).
  unfold load_users. simpl. rewrite filter_user_rows.
  apply rmap_load_user_saved.
Qed.



End RoundTrip.



(** ** Looking a profile up *)

Section Lookup.
Context {U : UnicodeData}.


Lemma find_user_by_uid_None (us : list user) (x : str) :
  find_user_by_uid us x = None <-> (forall u, In u us -> ~ matches x u).
Proof.
  unfold find_user_by_uid, matches. split.
  - intros H u Hin E. pose proof (find_none _ _ H u Hin) as F.
    simpl in F. apply str_eqb_neq in F. contradiction.
  - intros H. induction us as [|v us IH]; simpl; [reflexivity|].
    destruct (str_eqb (normalize_uid (uid v)) (normalize_uid x)) eqn:E.
    + apply str_eqb_eq in E. destruct (H v); simpl; auto.
    + apply IH. intros u Hu. apply H. simpl. auto.
Qed.


(** In a set of profiles the lookup finds the one profile that matches. *)
Lemma find_user_by_uid_unique (us : list user) (x : str) (u : user) :
  unique_ids us -> In u us -> matches x u ->
  find_user_by_uid us x = Some u.
Proof.
  unfold unique_ids, canonical_ids, find_user_by_uid, matches.
  induction us as [|v us IH]; simpl; [contradiction|].
  intros Hnd Hin E. inversion Hnd as [|? ? Hv Hus]; subst.
  destruct (str_eqb (normalize_uid (uid v)) (normalize_uid x)) eqn:Ev.
  - destruct Hin as [->|Hin]; [reflexivity|].
    apply str_eqb_eq in Ev. exfalso. apply Hv. rewrite Ev, <- E.
    now apply (in_map (fun u => normalize_uid (uid u))).
  - destruct Hin as [->|Hin].
    + apply str_eqb_neq in Ev. contradiction.
    + now apply IH.
Qed.

End Lookup.

(** ** The coordinator *)

Section Coordinator.
Context {U : UnicodeData}.

(** [refresh_tables] writes nothing but [users] and [logs], and [users]
    only with what [load_users] returns. *)
Lemma refresh_tables_frame (a : App) :
  same_world a (snd (refresh_tables a)) /\
  same_inputs a (snd (refresh_tables a)) /\
  uid_detected_var (snd (refresh_tables a)) = uid_detected_var a /\
  (users (snd (refresh_tables a)) = users a \/
   load_users (files a) = Ok (users (snd (refresh_tables a)))).
Proof.
  unfold refresh_tables, bind, get, lift, modify, ret, same_world, same_inputs.
  destruct (load_users (files a)) as [us|e]; simpl; [|tauto].
  destruct (load_logs None (files a)) as [ls|e]; simpl; [|tauto].
  destruct (rmap show_log (slice_from (-200) ls)); simpl; tauto.
Qed.

Lemma records_appended (n : node) (r : AttendanceRecord) :
  records (File true
    ((if tell_is_0 (content n) then content n ++ [log_header] else content n)
     ++ [record_row r]))
  = records n ++ [record_row r].
Proof.
  unfold records. destruct (content n) as [|h rest]; simpl; [reflexivity|].
  rewrite filter_app. reflexivity.
Qed.

(** A known identifier: one record is written, nothing is staged. *)
Lemma on_uid_received_known (uid_ : str) (a : App) (u : user) :
  find_user_by_uid (users a) uid_ = Some u ->
  read_only (log_csv (files a)) = false ->
  let a' := snd (on_uid_received uid_ a) in
  records (log_csv (files a')) =
    records (log_csv (files a))
    ++ [record_row (logged uid_ (nama u) (wall_clock a (clock_reads a)))] /\
  users_csv (files a') = users_csv (files a) /\
  uid_detected_var a' = uid_ /\
  same_inputs a a'.
Proof.
  intros F W. unfold on_uid_received, bind, get, modify. simpl. rewrite F.
  unfold append_log_M. simpl. rewrite (append_log_rows _ _ _ _ W).
  match goal with |- context [refresh_tables ?s] =>
    destruct (refresh_tables_frame s) as ((Hf & _) & Hi & Hd & _);
    destruct (refresh_tables s) as [r a'] end.
  simpl in *. rewrite Hf. simpl. rewrite records_appended.
  repeat split; try assumption; apply Hi.
Qed.

(** An unknown identifier: it is staged, the bell rings, no file is
    touched. *)
Lemma on_uid_received_unknown (uid_ : str) (a : App) :
  find_user_by_uid (users a) uid_ = None ->
  on_uid_received uid_ a =
  (Ok tt, ring_bell (set_uid_var uid_ (set_uid_detected_var uid_ a))).
Proof.
  intros F. unfold on_uid_received, bind, get, modify. simpl. now rewrite F.
Qed.

Lemma drain_one (uid_ : str) (a : App) :
  uid_ <> [] ->
  drain [uid_] a =
  on_uid_received uid_ (set_serial_queue (tl (serial_queue a)) a).
Proof.
  intros H. apply truthy_nonempty in H.
  unfold drain, bind, modify, ret. simpl. rewrite H.
  destruct (on_uid_received uid_ _) as [[[]|e] a']; reflexivity.
Qed.

(** Every non-empty identifier of the queue is handed to
    [on_uid_received], in the order of the queue, as long as no handler
    raises. *)
Lemma drain_cons (uid_ : str) (rest : list str) (a : App) :
  uid_ <> [] ->
  drain (uid_ :: rest) a =
  match on_uid_received uid_ (set_serial_queue (tl (serial_queue a)) a) with
  | (Ok _, a') => drain rest a'
  | (Raise e, a') => (Raise e, a')
  end.
Proof.
  intros H. apply truthy_nonempty in H.
  cbn [drain]. unfold bind, modify. now rewrite H.
Qed.



End Coordinator.

(** ** The known-identifier scenario *)

Section Scenario.
Context {U : UnicodeData}.

(** C3: with the profile [AB12CD], Alice, in a set of profiles, the scan
    [" ab-12 cd \n"] is published by the worker as [AB12CD], is matched
    with that profile, and the tick of the coordinator appends to a log
    that can be written exactly one record, [AB12CD], Alice and the time
    of the clock. *)
Theorem known_identifier_scenario (port : str) (a : App) (u : user) :
  unique_ids (users a) ->
  In u (users a) -> uid u = py "AB12CD" -> nama u = Some (py "Alice") ->
  read_only (log_csv (files a)) = false ->
  serial_queue a = out_queue (run port None [ReadLine scan_ab12cd] []) ->
  normalize_uid scan_ab12cd = py "AB12CD" /\
  serial_queue a = [py "AB12CD"] /\
  find_user_by_uid (users a) (py "AB12CD") = Some u /\
  records (log_csv (files (snd (poll_serial a)))) =
    records (log_csv (files a))
    ++ [[py "AB12CD"; py "Alice"; wall_clock a (clock_reads a)]] /\
  uid_var (snd (poll_serial a)) = uid_var a.
Proof.
  intros Hu Hin Eu En W Q.
  assert (F : find_user_by_uid (users a) (py "AB12CD") = Some u).
  { apply find_user_by_uid_unique; try assumption.
    unfold matches. now rewrite Eu. }
  change (out_queue (run port None [ReadLine scan_ab12cd] []))
    with [py "AB12CD"] in Q.
  assert (P : poll_serial a =
              on_uid_received (py "AB12CD")
                (set_serial_queue (tl (serial_queue a)) a)).
  { change (poll_serial a) with (drain (serial_queue a) a).
    rewrite Q at 1. now apply drain_one. }
  destruct (on_uid_received_known (py "AB12CD")
              (set_serial_queue (tl (serial_queue a)) a) u F W)
    as (R & _ & _ & Hi & _).
  rewrite <- P in R, Hi.
  repeat split; try assumption; try reflexivity.
  rewrite R. cbn [files set_serial_queue log_csv wall_clock clock_reads].
  rewrite En. reflexivity.
Qed.

End Scenario.

Lemma known_identifier_scenario_witness :
  let a := set_serial_queue [py "AB12CD"]
             (window [alice] [] [] []
                {| users_csv := Absent; log_csv := Absent |}) in
  records (log_csv (files (snd (poll_serial (U:=ucd_j_caron) a)))) =
  [[py "AB12CD"; py "Alice"; py "2024-05-01 08:00:00"]].
Proof.
  intros a.
  refine (proj1 (proj2 (proj2 (proj2
    (known_identifier_scenario (U:=ucd_j_caron) (py "COM3") a alice
       _ _ eq_refl eq_refl eq_refl eq_refl))))).
  - repeat constructor. simpl. tauto.
  - simpl. auto.
Defined.



(** ** Saving and deleting profiles *)

Section Profiles.
Context {U : UnicodeData}.

Lemma save_users_read_only (us : list user) (d : disk) (rows : list row) :
  users_csv d = File false rows ->
  save_users us d = Raise (PermissionError USERS_CSV).
Proof. intros E. unfold save_users. now rewrite E. Qed.

(** On a sound device the handlers are the ones defined first. *)
Lemma save_users_M_on_Sound (a : App) :
  save_users_M_on Sound a = save_users_M a.
Proof.
  unfold save_users_M_on, save_users_M, save_users_on, save_users, rbind.
  destruct a as [us ls ud uv nv mv q b dl fs wc cr]. simpl.
  destruct (users_csv fs) as [|[|] rows]; reflexivity.
Qed.

Lemma form_save_on_Sound (a : App) : form_save_on Sound a = form_save a.
Proof.
  unfold form_save_on, form_save, bind, get, modify. simpl.
  destruct (negb (truthy (normalize_uid (uid_var a)))
            || negb (truthy (strip (nama_var a)))); [reflexivity|].
  destruct (find_user_by_uid (users a) (normalize_uid (uid_var a))); simpl;
    now rewrite save_users_M_on_Sound.
Qed.

Lemma delete_user_on_Sound (sel : option str) (yes : bool) (a : App) :
  delete_user_on Sound sel yes a = delete_user sel yes a.
Proof.
  destruct sel as [v|]; [|reflexivity]. destruct yes; [|reflexivity].
  unfold delete_user_on, delete_user, bind, get, modify. simpl.
  now rewrite save_users_M_on_Sound.
Qed.

(** Where [open] fails the device does not matter. *)
Lemma save_users_M_on_read_only (dev : device) (a : App) :
  read_only (users_csv (files a)) = true ->
  save_users_M_on dev a = save_users_M a.
Proof.
  unfold save_users_M_on, save_users_M, save_users_on, save_users, rbind.
  destruct a as [us ls ud uv nv mv q b dl fs wc cr]. simpl.
  destruct (users_csv fs) as [|[|] rows]; try discriminate. reflexivity.
Qed.

Lemma form_save_on_read_only (dev : device) (a : App) :
  read_only (users_csv (files a)) = true ->
  form_save_on dev a = form_save a.
Proof.
  intros W. unfold form_save_on, form_save, bind, get, modify. simpl.
  destruct (negb (truthy (normalize_uid (uid_var a)))
            || negb (truthy (strip (nama_var a)))); [reflexivity|].
  destruct (find_user_by_uid (users a) (normalize_uid (uid_var a))); simpl;
    match goal with |- context [save_users_M_on dev ?b] =>
      rewrite (save_users_M_on_read_only dev b W) end;
    reflexivity.
Qed.

Lemma delete_user_on_read_only (dev : device) (sel : option str) (yes : bool)
  (a : App) :
  read_only (users_csv (files a)) = true ->
  delete_user_on dev sel yes a = delete_user sel yes a.
Proof.
  intros W. destruct sel as [v|]; [|reflexivity].
  destruct yes; [|reflexivity].
  unfold delete_user_on, delete_user, bind, get, modify. simpl.
  match goal with |- context [save_users_M_on dev ?b] =>
    rewrite (save_users_M_on_read_only dev b W) end.
  reflexivity.
Qed.

(** A failed [save_users] leaves the exception and the file as the device
    left it; the rest of the window is untouched. *)
Lemma save_users_M_on_fails (dev : device) (a : App) (e : exn) :
  fst (save_users_on dev (users a) (files a)) = Raise e ->
  save_users_M_on dev a =
  (Raise e, set_files (snd (save_users_on dev (users a) (files a))) a).
Proof.
  unfold save_users_M_on.
  destruct (save_users_on dev (users a) (files a)) as [r d]. simpl.
  now intros ->.
Qed.

(** C5, as amended: when [save_users] fails, at [open] on a file that
    cannot be written or at a write on a device that is full, the handler
    stops there with the exception, and the list in memory already holds
    the change: the profile updated or appended by [form_save], the
    profiles removed by [delete_user].  Nothing else of the window
    changes, the file apart: it is as before when it could not be opened,
    and holds what reached it when a write failed. *)
Theorem failed_save_keeps_the_change (dev : device) (a : App) (e : exn) :
  (normalize_uid (uid_var a) <> [] -> strip (nama_var a) <> [] ->
   fst (save_users_on dev (form_users a) (files a)) = Raise e ->
   form_save_on dev a =
   (Raise e,
    set_files (snd (save_users_on dev (form_users a) (files a)))
      (set_users (form_users a) a))) /\
  (forall v,
   fst (save_users_on dev (users_without v a) (files a)) = Raise e ->
   delete_user_on dev (Some v) true a =
   (Raise e,
    set_files (snd (save_users_on dev (users_without v a) (files a)))
      (set_users (users_without v a) a))) /\
  (forall us d,
   fst (save_users_on dev us d) = Raise e ->
   (read_only (users_csv d) = true /\ e = PermissionError USERS_CSV /\
    snd (save_users_on dev us d) = d) \/
   (read_only (users_csv d) = false /\ e = OSError /\
    exists k torn, dev = FailsAfter k torn /\
      snd (save_users_on dev us d) =
      {| users_csv :=
           File true (firstn k (users_header :: map user_row us) ++ torn);
         log_csv := log_csv d |})).
Proof.
  split; [|split].
  - intros Hu Hn. apply truthy_nonempty in Hu, Hn.
    unfold form_save_on, form_users, bind, get, modify. simpl.
    rewrite Hu, Hn. simpl.
    destruct (find_user_by_uid (users a) (normalize_uid (uid_var a)));
      intros S; simpl;
      match goal with |- context [save_users_M_on dev ?b] =>
        rewrite (save_users_M_on_fails dev b e S) end;
      reflexivity.
  - intros v S. unfold delete_user_on, users_without, bind, get, modify.
    simpl.
    match goal with |- context [save_users_M_on dev ?b] =>
      rewrite (save_users_M_on_fails dev b e S) end.
    reflexivity.
  - intros us d. unfold save_users_on.
    destruct (users_csv d) as [|[|] rows] eqn:E; simpl.
    + destruct dev as [|k torn]; simpl; intros S; [discriminate|].
      right. injection S as <-. repeat split. now exists k, torn.
    + destruct dev as [|k torn]; simpl; intros S; [discriminate|].
      right. injection S as <-. repeat split. now exists k, torn.
    + intros S. left. injection S as <-. auto.
Qed.

(** *** Uniqueness of the identifiers *)

Lemma canonical_ids_update (x n m : str) (us : list user) :
  canonical_ids (update_users x n m us) = canonical_ids us.
Proof.
  unfold canonical_ids, update_users. rewrite map_map.
  apply map_ext. intros u.
  now destruct (str_eqb (normalize_uid (uid u)) x).
Qed.

Lemma ascii_uid_update (x n m : str) (us : list user) :
  forallb ascii_uid (update_users x n m us) = forallb ascii_uid us.
Proof.
  induction us as [|u us IH]; simpl; [reflexivity|]. rewrite IH.
  now destruct (str_eqb (normalize_uid (uid u)) x).
Qed.

Lemma unique_ids_filter (f : user -> bool) (us : list user) :
  unique_ids us -> unique_ids (filter f us).
Proof.
  unfold unique_ids, canonical_ids.
  induction us as [|u us IH]; simpl; [auto|].
  intros H. inversion H as [|? ? Hu Hus]; subst.
  destruct (f u); simpl; [|now apply IH].
  constructor; [|now apply IH].
  intros Hin. apply Hu. apply in_map_iff in Hin as (v & E & Hv).
  apply in_map_iff. exists v. split; [assumption|].
  now apply filter_In in Hv.
Qed.

Lemma ascii_uid_filter (f : user -> bool) (us : list user) :
  forallb ascii_uid us = true -> forallb ascii_uid (filter f us) = true.
Proof.
  induction us as [|u us IH]; simpl; [auto|].
  intros H. apply andb_true_iff in H as [Hu Hus].
  destruct (f u); simpl; [rewrite Hu|]; now apply IH.
Qed.

Lemma unique_ids_add (us : list user) (x : str) (n m : pyval) :
  unique_ids us -> find_user_by_uid us x = None ->
  unique_ids (us ++ [{| uid := x; nama := n; umur := m |}]).
Proof.
  unfold unique_ids, canonical_ids. intros Hus F.
  rewrite map_app. simpl.
  assert (Hx : ~ In (normalize_uid x) (map (fun u => normalize_uid (uid u)) us)).
  { intros Hin. apply in_map_iff in Hin as (v & E & Hv).
    exact (proj1 (find_user_by_uid_None us x) F v Hv E). }
  clear F. induction us as [|u us IH]; simpl.
  - constructor; [simpl; tauto | constructor].
  - inversion Hus as [|? ? Hu Hr]; subst. constructor.
    + rewrite in_app_iff. simpl. intros [H|[H|[]]]; [now apply Hu|].
      apply Hx. simpl. auto.
    + apply IH; [assumption|]. intros H. apply Hx. simpl. auto.
Qed.

(** Profiles with ASCII identifiers keep their identifiers in normal form
    through the file. *)
Lemma canonical_ids_reloaded (us : list user) :
  forallb ascii_uid us = true ->
  canonical_ids (map reloaded us) = canonical_ids us.
Proof.
  unfold canonical_ids. induction us as [|u us IH]; simpl; [reflexivity|].
  intros H. apply andb_true_iff in H as [Hu Hus].
  rewrite (IH Hus). f_equal.
  exact (proj1 (normalize_uid_reloaded _ Hu)).
Qed.

(** After [save_users] and [refresh_tables] the list in memory is the
    list saved, or that list as it comes back from the file. *)
Lemma saved_or_reloaded (a : App) (d : disk) (f : App -> App) :
  save_users (users a) (files a) = Ok d ->
  users (f (set_files d a)) = users a ->
  files (f (set_files d a)) = d ->
  let a' := snd (refresh_tables (f (set_files d a))) in
  users a' = users a \/ users a' = map reloaded (users a).
Proof.
  intros S Hu Hf a'.
  destruct (refresh_tables_frame (f (set_files d a))) as (_ & _ & _ & [E|E]).
  - left. subst a'. now rewrite E.
  - right. rewrite Hf, (load_users_saved _ _ _ S) in E.
    subst a'. now injection E.
Qed.

Lemma form_save_users (a : App) :
  users (snd (form_save a)) = users a \/
  users (snd (form_save a)) = form_users a \/
  users (snd (form_save a)) = map reloaded (form_users a).
Proof.
  unfold form_save, form_users, bind, get, modify. simpl.
  destruct (negb (truthy (normalize_uid (uid_var a)))
            || negb (truthy (strip (nama_var a)))); simpl; [now left|].
  right.
  destruct (find_user_by_uid (users a) (normalize_uid (uid_var a))); simpl;
    unfold save_users_M; simpl;
    match goal with |- context [save_users ?us ?d] =>
      destruct (save_users us d) as [d'|e] eqn:S end; simpl; auto;
    match goal with
    | S : save_users _ _ = Ok ?d
      |- context [refresh_tables (show ?m (set_files ?d ?b))] =>
        exact (saved_or_reloaded b d (show m) S eq_refl eq_refl)
    end.
Qed.

Lemma delete_user_users (sel : option str) (yes : bool) (a : App) :
  users (snd (delete_user sel yes a)) = users a \/
  exists v, sel = Some v /\
    (users (snd (delete_user sel yes a)) = users_without v a \/
     users (snd (delete_user sel yes a)) = map reloaded (users_without v a)).
Proof.
  destruct sel as [v|]; [|now left]. destruct yes; [|now left].
  right. exists v. split; [reflexivity|].
  unfold delete_user, users_without, bind, get, modify. simpl.
  unfold save_users_M. simpl.
  match goal with |- context [save_users ?us ?d] =>
    destruct (save_users us d) as [d'|e] eqn:S end; simpl; auto.
  match goal with
  | |- context [refresh_tables (set_files d' ?b)] =>
      exact (saved_or_reloaded b d' (fun x => x) S eq_refl eq_refl)
  end.
Qed.

(** Profiles with ASCII identifiers, whether or not they are in the form
    the program holds them: from such a list with pairwise distinct
    identifiers in normal form, and with ASCII text in the identifier
    field of the form, [form_save] and [delete_user] leave a list whose
    identifiers are pairwise distinct in normal form. *)
Lemma unique_ids_ascii (a : App) (sel : option str) (yes : bool) :
  forallb ascii_uid (users a) = true ->
  is_ascii_str (uid_var a) = true ->
  unique_ids (users a) ->
  unique_ids (users (snd (form_save a))) /\
  unique_ids (users (snd (delete_user sel yes a))).
Proof.
  intros Ha Hv Hu.
  assert (Hf : unique_ids (form_users a) /\
               forallb ascii_uid (form_users a) = true).
  { unfold form_users.
    destruct (find_user_by_uid (users a) (normalize_uid (uid_var a))) eqn:F.
    - unfold unique_ids. now rewrite canonical_ids_update, ascii_uid_update.
    - split; [now apply unique_ids_add|].
      rewrite forallb_app, Ha. simpl. unfold ascii_uid. simpl.
      now rewrite (normalize_uid_ascii_str _ Hv). }
  destruct Hf as [Hf1 Hf2]. split.
  - destruct (form_save_users a) as [E|[E|E]]; rewrite E; try assumption.
    unfold unique_ids. now rewrite canonical_ids_reloaded.
  - destruct (delete_user_users sel yes a) as [E|(v & _ & [E|E])];
      rewrite E; try assumption.
    + now apply unique_ids_filter.
    + unfold unique_ids. rewrite canonical_ids_reloaded.
      * now apply unique_ids_filter.
      * now apply ascii_uid_filter.
Qed.

End Profiles.

Lemma failed_save_keeps_the_change_witness :
  let a := alice_window (py "77 ff 01") (py "Budi") in
  let full := FailsAfter 1 [[py "AB12"]] in
  (fst (form_save_on (U:=ucd_j_caron) full a) = Raise OSError /\
   users (snd (form_save_on (U:=ucd_j_caron) full a)) =
     [alice;
      {| uid := py "77FF01"; nama := Some (py "Budi"); umur := Some [] |}] /\
   users_csv (files (snd (form_save_on (U:=ucd_j_caron) full a))) =
     File true [users_header; [py "AB12"]]) /\
  (fst (delete_user_on (U:=ucd_j_caron) Sound (Some (py "ab12cd")) true
          (window [alice] [] [] [] read_only_disk))
   = Raise (PermissionError USERS_CSV) /\
   users (snd (delete_user_on (U:=ucd_j_caron) Sound (Some (py "ab12cd")) true
                 (window [alice] [] [] [] read_only_disk))) = []) /\
  snd (save_users_on (U:=ucd_j_caron) full [alice] alice_disk) =
    {| users_csv := File true [users_header; [py "AB12"]];
       log_csv := log_csv alice_disk |}.
Proof.
  intros a full. split; [|split].
  - rewrite (proj1 (failed_save_keeps_the_change (U:=ucd_j_caron)
                      full a OSError)
               ltac:(vm_compute; discriminate) ltac:(vm_compute; discriminate)
               eq_refl).
    repeat split.
  - rewrite (proj1 (proj2 (failed_save_keeps_the_change (U:=ucd_j_caron)
                             Sound (window [alice] [] [] [] read_only_disk)
                             (PermissionError USERS_CSV)))
               (py "ab12cd") eq_refl).
    repeat split.
  - destruct (proj2 (proj2 (failed_save_keeps_the_change (U:=ucd_j_caron)
                              full a OSError))
                [alice] alice_disk eq_refl)
      as [(R & _)|(_ & _ & k & torn & E & F)].
    + discriminate R.
    + injection E as <- <-. exact F.
Defined.

(** C5 fails on a read-only users file: [form_save] raises out of
    [save_users], and the profile it appended stays in memory. *)
Lemma failed_save_changes_memory :
  fst (form_save (U:=ucd_j_caron) new_profile_form)
  = Raise (PermissionError USERS_CSV) /\
  files (snd (form_save (U:=ucd_j_caron) new_profile_form))
  = files new_profile_form /\
  users new_profile_form = [] /\
  users (snd (form_save (U:=ucd_j_caron) new_profile_form))
  = [alice] /\
  users (snd (form_save (U:=ucd_j_caron) new_profile_form))
  <> users new_profile_form.
Proof. repeat split. discriminate. Qed.

(** A list that holds the identifier U+01F0 itself, which [upper()]
    does not leave as it is: it is distinct from J in normal form, and
    [form_save] reloads it as J + U+030C, whose normal form is J. *)
Lemma unique_ids_lost_j_caron :
  unique_ids (U:=ucd_j_caron) (users j_caron_form) /\
  canonical_ids (U:=ucd_j_caron)
    (users (snd (form_save (U:=ucd_j_caron) j_caron_form)))
  = [py "J"; py "J"; py "K1"] /\
  ~ unique_ids (U:=ucd_j_caron)
      (users (snd (form_save (U:=ucd_j_caron) j_caron_form))).
Proof.
  repeat split.
  - repeat constructor; simpl; intuition discriminate.
  - intros H. vm_compute in H. inversion H as [|? ? Hin _].
    apply Hin. simpl. auto.
Qed.

(** ** Further properties of the record store *)

Section StoreEdges.
Context {U : UnicodeData}.

Lemma ensure_files_exists (d : disk) :
  exists_ (users_csv (ensure_files d)) = true /\
  exists_ (log_csv (ensure_files d)) = true.
Proof. destruct d as [[|wu ru] [|wl rl]]; split; reflexivity. Qed.

(** [ensure_files] creates what is absent, with its header, leaves what
    exists as it is, and changes nothing when it runs again. *)
Theorem ensure_files_keeps_existing (d : disk) :
  (users_csv (ensure_files d) =
     if exists_ (users_csv d) then users_csv d else File true [users_header]) /\
  (log_csv (ensure_files d) =
     if exists_ (log_csv d) then log_csv d else log_file true []) /\
  exists_ (users_csv (ensure_files d)) = true /\
  exists_ (log_csv (ensure_files d)) = true /\
  ensure_files (ensure_files d) = ensure_files d.
Proof.
  destruct d as [[|wu ru] [|wl rl]]; repeat split.
Qed.

Lemma load_logs_exists (limit : option Z) (d : disk) :
  exists_ (log_csv d) = true -> exists ls, load_logs limit d = Ok ls.
Proof.
  unfold load_logs. destruct (log_csv d) as [|w rows]; simpl; [discriminate|].
  intros _. destruct limit as [n|]; [destruct (n =? 0)%Z|]; eauto.
Qed.

(** Reading the rows raises [KeyError] or [AttributeError] only. *)
Lemma load_user_raises (r : dict) (e : exn) :
  load_user r = Raise e -> (exists k, e = KeyError k) \/ e = AttributeError.
Proof.
  unfold load_user, getitem, rbind.
  destruct (dict_get (py "uid") r) as [[c|]|].
  - destruct (dict_get (py "nama") r); [discriminate|].
    intros E. injection E as <-. eauto.
  - intros E. injection E as <-. auto.
  - intros E. injection E as <-. eauto.
Qed.

Lemma load_users_raises (rs : list dict) (e : exn) :
  rmap load_user rs = Raise e ->
  (exists k, e = KeyError k) \/ e = AttributeError.
Proof.
  induction rs as [|r rs IH]; simpl; [discriminate|].
  destruct (load_user r) as [u|e'] eqn:E; simpl.
  - destruct (rmap load_user rs); simpl; [discriminate|].
    intros H. injection H as <-. now apply IH.
  - intros H. injection H as <-. now apply (load_user_raises r).
Qed.

(** After [ensure_files] the two loads find their file: [load_logs]
    returns, [load_users] does not raise [FileNotFoundError], and on files
    just created both return the empty list. *)
Theorem loads_after_ensure_files (d : disk) (limit : option Z) :
  (exists ls, load_logs limit (ensure_files d) = Ok ls) /\
  (forall path, load_users (ensure_files d) <> Raise (FileNotFoundError path)) /\
  (users_csv d = Absent -> load_users (ensure_files d) = Ok []) /\
  (log_csv d = Absent -> load_logs limit (ensure_files d) = Ok []).
Proof.
  repeat split.
  - apply load_logs_exists. apply ensure_files_exists.
  - intros path.
    assert (X : exists_ (users_csv (ensure_files d)) = true)
      by apply ensure_files_exists.
    unfold load_users. destruct (users_csv (ensure_files d)) as [|w rows];
      [discriminate|]. simpl. intros E.
    destruct (load_users_raises _ _ E) as [[k Hk]|Ha]; discriminate.
  - destruct d as [u l]. simpl. intros ->. now destruct l.
  - destruct d as [u l]. simpl. intros ->.
    assert (E : log_csv (ensure_files {| users_csv := u; log_csv := Absent |})
                = File true [log_header]) by now destruct u.
    unfold load_logs. rewrite E. simpl.
    destruct limit as [n|]; [|reflexivity].
    destruct (n =? 0)%Z; [reflexivity|].
    unfold slice_from. now rewrite skipn_nil.
Qed.

End StoreEdges.

(** ** White space at the ends of a string *)

Section Strip.
Context {U : UnicodeData}.

Lemma lstrip_head (s : str) :
  lstrip s = [] \/ exists c t, lstrip s = c :: t /\ isspace c = false.
Proof.
  induction s as [|c s IH]; simpl; [now left|].
  destruct (isspace c) eqn:E; [exact IH|]. right. eauto.
Qed.

Lemma lstrip_snoc (l : str) (c : char) :
  isspace c = false -> lstrip (l ++ [c]) = lstrip l ++ [c].
Proof.
  intros Hc. induction l as [|x l IH]; simpl.
  - now rewrite Hc.
  - destruct (isspace x); [exact IH | reflexivity].
Qed.

Lemma rstrip_cons (c : char) (t : str) :
  isspace c = false -> rstrip (c :: t) = c :: rstrip t.
Proof.
  intros Hc. unfold rstrip. simpl.
  now rewrite (lstrip_snoc _ _ Hc), rev_app_distr.
Qed.

Lemma rstrip_last (t : str) (d : char) :
  rstrip t <> [] -> isspace (last (rstrip t) d) = false.
Proof.
  unfold rstrip. destruct (lstrip_head (rev t)) as [E|(x & l & E & Hx)];
    rewrite E; simpl; [congruence|].
  intros _. now rewrite last_last.
Qed.

Lemma trimmed_strip (s : str) : trimmed (strip s) = true.
Proof.
  unfold strip. destruct (lstrip_head s) as [E|(c & t & E & Hc)]; rewrite E.
  - reflexivity.
  - rewrite (rstrip_cons _ _ Hc). unfold trimmed. rewrite Hc. simpl.
    destruct (rstrip t) as [|y r] eqn:Er; [now rewrite Hc|].
    rewrite <- Er. rewrite rstrip_last; [reflexivity|]. now rewrite Er.
Qed.

Lemma strip_trimmed (s : str) : trimmed s = true -> strip s = s.
Proof.
  destruct s as [|c t]; [reflexivity|]. unfold trimmed.
  intros H. apply andb_true_iff in H as [Hc Hl].
  apply negb_true_iff in Hc, Hl.
  unfold strip. simpl lstrip. rewrite Hc. unfold rstrip.
  assert (N : c :: t <> []) by discriminate.
  rewrite (app_removelast_last c N) at 1.
  rewrite rev_app_distr. cbn [rev app lstrip]. rewrite Hl.
  cbn [rev]. rewrite rev_involutive. symmetry.
  now apply app_removelast_last.
Qed.

(** What [strip] returns is made of characters of its argument. *)
Lemma lstrip_incl (s : str) (c : char) : In c (lstrip s) -> In c s.
Proof.
  induction s as [|x s IH]; simpl; [auto|].
  destruct (isspace x); simpl; auto.
Qed.

Lemma strip_incl (s : str) (c : char) : In c (strip s) -> In c s.
Proof.
  unfold strip, rstrip. intros H. apply in_rev in H.
  apply lstrip_incl in H. apply in_rev in H. now apply lstrip_incl.
Qed.

Lemma no_lower_upper_ascii (s : str) :
  is_ascii_str s = true -> no_lower (map ascii_upper s) = true.
Proof.
  induction s as [|c s IH]; simpl; [reflexivity|].
  intros H. apply andb_true_iff in H as [Hc Hs].
  rewrite (IH Hs), andb_true_r.
  exact (ascii_cases (fun c => negb (is_lower_az (ascii_upper c)))
           ltac:(now vm_compute) c Hc).
Qed.

Lemma ascii_upper_no_lower (s : str) :
  no_lower s = true -> map ascii_upper s = s.
Proof.
  induction s as [|c s IH]; simpl; [reflexivity|].
  intros H. apply andb_true_iff in H as [Hc Hs].
  apply negb_true_iff in Hc. unfold ascii_upper at 1. rewrite Hc.
  now rewrite IH.
Qed.

Lemma no_lower_incl (s t : str) :
  (forall c, In c t -> In c s) -> no_lower s = true -> no_lower t = true.
Proof.
  unfold no_lower. intros I H. rewrite forallb_forall in *. auto.
Qed.

Lemma is_ascii_str_incl (s t : str) :
  (forall c, In c t -> In c s) -> is_ascii_str s = true ->
  is_ascii_str t = true.
Proof.
  unfold is_ascii_str. intros I H. rewrite forallb_forall in *. auto.
Qed.

Lemma last_map_upper (t : str) (d : char) :
  last (map ascii_upper t) (ascii_upper d) = ascii_upper (last t d).
Proof.
  induction t as [|c t IH]; [reflexivity|].
  destruct t as [|c' t]; [reflexivity|]. exact IH.
Qed.

Lemma trimmed_map_upper (t : str) :
  is_ascii_str t = true -> trimmed (map ascii_upper t) = trimmed t.
Proof.
  destruct t as [|c t]; [reflexivity|]. intros Ht.
  assert (Hc : is_ascii c = true)
    by (simpl in Ht; now apply andb_true_iff in Ht).
  assert (Hl : is_ascii (last (c :: t) c) = true).
  { unfold is_ascii_str in Ht. rewrite forallb_forall in Ht. apply Ht.
    destruct (exists_last (l:=c :: t) ltac:(discriminate)) as (l' & a & E).
    rewrite E, last_last. apply in_or_app. simpl. auto. }
  unfold trimmed. cbn [map].
  change (ascii_upper c :: map ascii_upper t) with (map ascii_upper (c :: t)).
  rewrite last_map_upper.
  now rewrite (isspace_ascii_upper _ Hc), (isspace_ascii_upper _ Hl).
Qed.

(** On ASCII text, [upper (strip s)] is in stored form. *)
Lemma upper_strip_stored (s : str) :
  is_ascii_str s = true ->
  is_ascii_str (upper (strip s)) = true /\
  no_lower (upper (strip s)) = true /\
  trimmed (upper (strip s)) = true.
Proof.
  intros H.
  assert (Hs : is_ascii_str (strip s) = true)
    by (apply (is_ascii_str_incl s); [apply strip_incl | assumption]).
  rewrite (upper_ascii _ Hs).
  split; [now apply map_ascii_upper_ascii|].
  split; [now apply no_lower_upper_ascii|].
  rewrite (trimmed_map_upper _ Hs). apply trimmed_strip.
Qed.

(** A string in stored form goes through [upper], [strip] and [upper]
    unchanged. *)
Lemma stored_uid_fixed (x : str) :
  is_ascii_str x = true -> no_lower x = true -> trimmed x = true ->
  upper x = x /\ upper (strip (upper x)) = x.
Proof.
  intros Ha Hl Ht.
  assert (E : upper x = x)
    by (rewrite (upper_ascii _ Ha); now apply ascii_upper_no_lower).
  split; [exact E|]. now rewrite E, (strip_trimmed _ Ht).
Qed.

End Strip.

(** ** Rows as dictionaries *)

Lemma dict_get_set (k k' : str) (v : pyval) (d : dict) :
  dict_get k (dict_set k' v d) =
  if str_eqb k' k then Some v else dict_get k d.
Proof.
  induction d as [|[k1 v1] d IH]; simpl; [reflexivity|].
  destruct (str_eqb k1 k') eqn:E1; simpl.
  - apply str_eqb_eq in E1. rewrite <- E1. now destruct (str_eqb k1 k).
  - rewrite IH. destruct (str_eqb k1 k) eqn:E2; [|reflexivity].
    destruct (str_eqb k' k) eqn:E3; [|reflexivity].
    apply str_eqb_eq in E2, E3. rewrite E2, E3, str_eqb_refl in E1.
    discriminate.
Qed.

Lemma zip_rest_keys (fieldnames : list str) (r : row) :
  map fst (zip_rest fieldnames r) = fieldnames.
Proof.
  revert r. induction fieldnames as [|f fs IH]; intros [|c cs]; simpl;
    try reflexivity; now rewrite IH.
Qed.

Lemma zip_rest_cells (fieldnames : list str) (r : row) (f : str) (c : str) :
  In (f, Some c) (zip_rest fieldnames r) -> In c r.
Proof.
  revert r. induction fieldnames as [|g fs IH]; intros [|x cs]; simpl;
    try contradiction.
  - intros [E|H]; [discriminate | now apply (IH [])].
  - intros [E|H]; [injection E as _ ->; now left | right; now apply IH].
Qed.

(** A key that is no field name is not in the dictionary of a row, and a
    string found in it is a cell of the row. *)
Lemma row_dict_missing (fieldnames : list str) (r : row) (k : str) :
  ~ In k fieldnames -> dict_get k (row_dict fieldnames r) = None.
Proof.
  unfold row_dict. rewrite <- (zip_rest_keys fieldnames r) at 1.
  generalize (zip_rest fieldnames r) as l. intros l.
  assert (G : forall acc, dict_get k acc = None -> ~ In k (map fst l) ->
    dict_get k (fold_left (fun d kv => dict_set (fst kv) (snd kv) d) l acc)
    = None).
  { induction l as [|[f v] l IH]; simpl; intros acc Ha Hn; [assumption|].
    apply IH; [|tauto]. rewrite dict_get_set.
    destruct (str_eqb f k) eqn:E; [|assumption].
    apply str_eqb_eq in E. tauto. }
  now apply G.
Qed.

Lemma row_dict_cell (fieldnames : list str) (r : row) (k c : str) :
  dict_get k (row_dict fieldnames r) = Some (Some c) -> In c r.
Proof.
  unfold row_dict.
  pose proof (zip_rest_cells fieldnames r) as Z. revert Z.
  generalize (zip_rest fieldnames r) as l. intros l Z.
  assert (G : forall acc,
    (dict_get k acc = Some (Some c) -> In c r) ->
    dict_get k (fold_left (fun d kv => dict_set (fst kv) (snd kv) d) l acc)
    = Some (Some c) -> In c r).
  { induction l as [|[f v] l IH]; simpl; intros acc Ha; [assumption|].
    apply IH; [intros g x Hg; apply (Z g); now right|].
    rewrite dict_get_set. destruct (str_eqb f k); [|assumption].
    intros E. injection E as ->. apply (Z f). now left. }
  apply G. discriminate.
Qed.

(** ** What [load_users] returns and raises *)

Section LoadUsers.
Context {U : UnicodeData}.

Lemma load_user_uid (fieldnames : list str) (r : row) (u : user) :
  load_user (row_dict fieldnames r) = Ok u ->
  exists c, In c r /\ uid u = upper (strip c).
Proof.
  unfold load_user, getitem, rbind.
  destruct (dict_get (py "uid") (row_dict fieldnames r)) as [[c|]|] eqn:E;
    try discriminate.
  destruct (dict_get (py "nama") (row_dict fieldnames r)); [|discriminate].
  intros H. injection H as <-. exists c. split; [|reflexivity].
  now apply (row_dict_cell fieldnames r (py "uid")).
Qed.

Lemma rmap_Forall {A B} (f : A -> result B) (P : B -> Prop) (l : list A) :
  (forall a b, In a l -> f a = Ok b -> P b) ->
  forall bs, rmap f l = Ok bs -> Forall P bs.
Proof.
  induction l as [|a l IH]; simpl; intros H bs E.
  - injection E as <-. constructor.
  - destruct (f a) as [b|] eqn:Ea; simpl in E; [|discriminate].
    destruct (rmap f l) as [bs'|] eqn:El; simpl in E; [|discriminate].
    injection E as <-. constructor.
    + apply (H a); [now left | assumption].
    + apply IH; [|reflexivity]. intros a' b' Hin. apply H. now right.
Qed.

(** The identifiers that [load_users] reads from a file of ASCII text are
    in upper case and have no white space around them. *)
Theorem load_users_normal_ids (d : disk) (us : list user) :
  ascii_rows (content (users_csv d)) = true ->
  load_users d = Ok us ->
  Forall (fun u => is_ascii_str (uid u) = true /\
                   no_lower (uid u) = true /\ trimmed (uid u) = true) us.
Proof.
  unfold load_users, open_r. destruct (users_csv d) as [|w rows]; simpl;
    [discriminate|].
  intros Ha. destruct rows as [|fieldnames rest]; simpl.
  - intros E. injection E as <-. constructor.
  - apply rmap_Forall. intros a u Hin E.
    apply in_map_iff in Hin as (r & <- & Hr). apply filter_In in Hr as [Hr _].
    destruct (load_user_uid _ _ _ E) as (c & Hc & ->).
    apply upper_strip_stored.
    simpl in Ha. apply andb_true_iff in Ha as [_ Ha].
    unfold ascii_rows in Ha. rewrite forallb_forall in Ha.
    specialize (Ha r Hr). rewrite forallb_forall in Ha. now apply Ha.
Qed.

(** [load_users] on a missing file raises [FileNotFoundError]; on a file
    without a row under the header it returns the empty list, whatever the
    header; on a file whose header has no column [uid] the first row that
    is not blank raises [KeyError]; and a row that stops after the
    identifier gives a profile whose name and age are [None]. *)
Theorem load_users_edges (d : disk) :
  (users_csv d = Absent ->
   load_users d = Raise (FileNotFoundError USERS_CSV)) /\
  (forall w fieldnames,
     users_csv d = File w [] \/ users_csv d = File w [fieldnames] ->
     load_users d = Ok []) /\
  (forall w fieldnames blanks r rest,
     users_csv d = File w (fieldnames :: blanks ++ r :: rest) ->
     forallb is_blank blanks = true ->
     r <> [] -> ~ In (py "uid") fieldnames ->
     load_users d = Raise (KeyError (py "uid"))) /\
  (forall w c,
     users_csv d = File w [users_header; [c]] ->
     load_users d =
     Ok [{| uid := upper (strip c); nama := None; umur := None |}]).
Proof.
  unfold load_users. repeat split.
  - intros ->. reflexivity.
  - intros w fieldnames [-> | ->]; reflexivity.
  - intros w fieldnames blanks r rest -> Hb Hr Hk. simpl.
    rewrite filter_app.
    replace (filter (fun r0 => negb (is_blank r0)) blanks) with (@nil row).
    2:{ clear - Hb. induction blanks as [|b bs IH]; [reflexivity|].
        simpl in *. apply andb_true_iff in Hb as [H1 H2].
        rewrite H1. simpl. now apply IH. }
    destruct r as [|c cs]; [contradiction|]. simpl.
    unfold load_user at 1, getitem.
    now rewrite (row_dict_missing fieldnames (c :: cs) (py "uid") Hk).
  - intros w c ->. reflexivity.
Qed.

Lemma reloaded_stored (u : user) :
  stored_profile u = true -> reloaded u = u.
Proof.
  unfold stored_profile, reloaded. destruct u as [x [n|] [m|]]; simpl;
    rewrite ?andb_false_r; try discriminate.
  rewrite andb_true_r. intros H.
  apply andb_true_iff in H as [H Ht]. apply andb_true_iff in H as [Ha Hl].
  now rewrite (proj2 (stored_uid_fixed x Ha Hl Ht)).
Qed.

(** Profiles in the form the store keeps them (ASCII identifier in upper
    case without white space around it, name and age strings) come back
    from the file exactly as they were saved, in the same order. *)
Theorem stored_profiles_round_trip (us : list user) (d d' : disk) :
  forallb stored_profile us = true ->
  save_users us d = Ok d' ->
  load_users d' = Ok us.
Proof.
  intros Hs S. rewrite (load_users_saved _ _ _ S). f_equal. clear S.
  induction us as [|u us IH]; [reflexivity|].
  simpl in Hs. apply andb_true_iff in Hs as [Hu Hus].
  cbn [map]. now rewrite (reloaded_stored _ Hu), (IH Hus).
Qed.

(** A negative limit makes [load_logs] drop records from the front: with
    the limit [-k] it returns the records after the first [k]. *)
Theorem load_logs_negative_limit
  (recs : list AttendanceRecord) (w : bool) (us : node) (n : Z) :
  (n < 0)%Z ->
  load_logs (Some n) {| users_csv := us; log_csv := log_file w recs |}
  = Ok (map record_dict (skipn (Z.to_nat (- n)) recs)).
Proof.
  intros Hn. unfold load_logs, log_file. simpl open_r. unfold rbind.
  rewrite DictReader_log.
  replace (n =? 0)%Z with false by (symmetry; apply Z.eqb_neq; lia).
  unfold slice_from.
  replace (- n <? 0)%Z with false by (symmetry; apply Z.ltb_ge; lia).
  rewrite length_map, <- skipn_map. f_equal.
  destruct (Z.le_gt_cases (- n) (Z.of_nat (List.length recs))) as [L|G].
  - now rewrite Z.min_l.
  - rewrite Z.min_r by lia. rewrite Nat2Z.id.
    rewrite !skipn_all2; [reflexivity | rewrite length_map; lia
                         | rewrite length_map; lia].
Qed.

End LoadUsers.

(** ** Uniqueness of the identifiers the program holds *)

Section Held.
Context {U : UnicodeData}.

Lemma upper_upper (s : str) :
  upper_idempotent -> upper (upper s) = upper s.
Proof.
  intros I. induction s as [|c s IH]; [reflexivity|].
  change (upper (c :: s)) with (upper_char c ++ upper s).
  now rewrite upper_app, I, IH.
Qed.

Lemma last_In (c : char) (s : str) : In (last (c :: s) c) (c :: s).
Proof.
  destruct (exists_last (l:=c :: s)) as (l & x & E); [discriminate|].
  rewrite E, last_last, in_app_iff. right. now left.
Qed.

Lemma trimmed_no_space (s : str) :
  (forall c, In c s -> isspace c = false) -> trimmed s = true.
Proof.
  destruct s as [|c t]; [reflexivity|]. intros H. unfold trimmed.
  rewrite (H c) by now left.
  now rewrite (H _ (last_In c t)).
Qed.

Lemma upper_no_space (t : str) :
  upper_alnum_no_space ->
  (forall c, In c t -> isalnum c = true) ->
  forall d, In d (upper t) -> isspace d = false.
Proof.
  intros A H d Hd. unfold upper in Hd.
  apply in_flat_map in Hd as (c & Hc & Hd). exact (A c d (H c Hc) Hd).
Qed.

(** What [normalize_uid] returns is left as it is by [upper()] and by
    [strip()]. *)
Lemma held_normalize_uid (x : str) :
  upper_idempotent -> upper_alnum_no_space ->
  upper (normalize_uid x) = normalize_uid x /\
  strip (normalize_uid x) = normalize_uid x.
Proof.
  intros I A. unfold normalize_uid. split.
  - now apply upper_upper.
  - apply strip_trimmed, trimmed_no_space, (upper_no_space _ A).
    intros c Hc. now apply filter_In in Hc.
Qed.

(** And so is what [load_users] makes of a cell: [.strip().upper()]. *)
Lemma held_upper_strip (x : str) :
  upper_idempotent -> upper_keeps_non_space ->
  upper (upper (strip x)) = upper (strip x) /\
  strip (upper (strip x)) = upper (strip x).
Proof.
  intros I K. split; [now apply upper_upper|].
  apply strip_trimmed. pose proof (trimmed_strip x) as T.
  destruct (strip x) as [|c t]; [reflexivity|].
  unfold trimmed in T. apply andb_true_iff in T as [Hc Hl].
  apply negb_true_iff in Hc, Hl.
  destruct (K c Hc) as [Nc Sc].
  destruct (exists_last (l:=c :: t)) as (l & z & E); [discriminate|].
  rewrite E, last_last in Hl. destruct (K z Hl) as [Nz Sz].
  destruct (exists_last Nz) as (l' & w & Ew).
  assert (El : upper (c :: t) = (upper l ++ l') ++ [w]).
  { rewrite E, upper_app. change (upper [z]) with (upper_char z ++ []).
    now rewrite app_nil_r, Ew, app_assoc. }
  change (upper (c :: t)) with (upper_char c ++ upper t) in *.
  destruct (upper_char c) as [|d ds]; [congruence|].
  cbn [List.app] in *. unfold trimmed.
  rewrite (Sc d) by now left. rewrite El, last_last.
  rewrite (Sz w); [reflexivity|]. rewrite Ew, in_app_iff. right. now left.
Qed.

Lemma reloaded_held (u : user) : held_uid u -> uid (reloaded u) = uid u.
Proof. intros [Hu Hs]. unfold reloaded. simpl. now rewrite Hu, Hs, Hu. Qed.

Lemma canonical_ids_held (us : list user) :
  Forall held_uid us -> canonical_ids (map reloaded us) = canonical_ids us.
Proof.
  unfold canonical_ids. induction 1 as [|u us Hu _ IH]; [reflexivity|].
  cbn [map]. now rewrite IH, (reloaded_held u Hu).
Qed.

Lemma held_reloaded (us : list user) :
  Forall held_uid us -> Forall held_uid (map reloaded us).
Proof.
  induction 1 as [|u us Hu _ IH]; constructor; [|exact IH].
  unfold held_uid. now rewrite (reloaded_held u Hu).
Qed.

Lemma held_update (x n m : str) (us : list user) :
  Forall held_uid us -> Forall held_uid (update_users x n m us).
Proof.
  unfold update_users.
  induction 1 as [|u us Hu _ IH]; constructor; [|exact IH].
  now destruct (str_eqb (normalize_uid (uid u)) x).
Qed.

Lemma held_filter (f : user -> bool) (us : list user) :
  Forall held_uid us -> Forall held_uid (filter f us).
Proof.
  induction 1 as [|u us Hu _ IH]; simpl; [constructor|].
  destruct (f u); [now constructor | exact IH].
Qed.

(** The list that [load_users] returns holds such identifiers only. *)
Lemma load_users_held (d : disk) (us : list user) :
  upper_idempotent -> upper_keeps_non_space ->
  load_users d = Ok us -> Forall held_uid us.
Proof.
  intros I K. unfold load_users, open_r.
  destruct (users_csv d) as [|w rows]; simpl; [discriminate|].
  destruct rows as [|fieldnames rest]; simpl.
  - intros E. injection E as <-. constructor.
  - apply rmap_Forall. intros r u Hin E.
    apply in_map_iff in Hin as (r' & <- & _).
    destruct (load_user_uid _ _ _ E) as (c & _ & Ec).
    unfold held_uid. rewrite Ec. now apply held_upper_strip.
Qed.

(** C7: from a list of profiles whose identifiers are pairwise distinct in
    normal form, [form_save] and [delete_user] leave a list whose
    identifiers are pairwise distinct in normal form.  The list is one the
    program can hold: its identifiers are left as they are by [upper()]
    and by [strip()], and that too is kept by both handlers. *)
Theorem unique_ids_preserved (a : App) (sel : option str) (yes : bool) :
  upper_idempotent -> upper_alnum_no_space ->
  Forall held_uid (users a) ->
  unique_ids (users a) ->
  (unique_ids (users (snd (form_save a))) /\
   Forall held_uid (users (snd (form_save a)))) /\
  (unique_ids (users (snd (delete_user sel yes a))) /\
   Forall held_uid (users (snd (delete_user sel yes a)))).
Proof.
  intros I A Hh Hu.
  assert (R : forall us, unique_ids us -> Forall held_uid us ->
                unique_ids (map reloaded us) /\
                Forall held_uid (map reloaded us)).
  { intros us H1 H2. split; [|now apply held_reloaded].
    unfold unique_ids. now rewrite canonical_ids_held. }
  assert (Hf : unique_ids (form_users a) /\ Forall held_uid (form_users a)).
  { unfold form_users.
    destruct (find_user_by_uid (users a) (normalize_uid (uid_var a))) eqn:F.
    - split; [|now apply held_update].
      unfold unique_ids. now rewrite canonical_ids_update.
    - split; [now apply unique_ids_add|].
      apply Forall_app. split; [assumption|].
      constructor; [|constructor].
      exact (held_normalize_uid (uid_var a) I A). }
  assert (Hw : forall v, unique_ids (users_without v a) /\
                         Forall held_uid (users_without v a)).
  { intros v. unfold users_without. split;
      [now apply unique_ids_filter | now apply held_filter]. }
  split.
  - destruct (form_save_users a) as [E|[E|E]]; rewrite E.
    + now split.
    + exact Hf.
    + now apply R.
  - destruct (delete_user_users sel yes a) as [E|(v & _ & [E|E])];
      rewrite E.
    + now split.
    + apply Hw.
    + now apply R; apply Hw.
Qed.

End Held.

(** The three facts hold of the entries above. *)
Lemma j_caron_upper_idempotent : upper_idempotent (U:=ucd_j_caron).
Proof.
  intros c. unfold upper_char. destruct (is_ascii c) eqn:Hc.
  - change (upper [ascii_upper c]) with (upper_char (ascii_upper c) ++ []).
    rewrite app_nil_r, (upper_char_ascii _ (ascii_upper_ascii c Hc)).
    now rewrite (ascii_upper_idem c Hc).
  - simpl ucd_upper. destruct (c =? 496)%N eqn:E; [reflexivity|].
    change (upper [c]) with (upper_char c ++ []).
    unfold upper_char. rewrite Hc. simpl ucd_upper. now rewrite E.
Qed.

Lemma j_caron_upper_alnum_no_space : upper_alnum_no_space (U:=ucd_j_caron).
Proof.
  intros c d. unfold upper_char, isalnum. destruct (is_ascii c) eqn:Hc.
  - intros Ha [<-|[]]. rewrite (isspace_ascii_upper c Hc).
    destruct (isspace c) eqn:Hs; [|reflexivity].
    pose proof (isspace_not_alnum c Hc Hs) as N.
    unfold isalnum in N. rewrite Hc in N. congruence.
  - simpl. intros E. rewrite E. intros [<-|[<-|[]]]; reflexivity.
Qed.

Lemma j_caron_upper_keeps_non_space : upper_keeps_non_space (U:=ucd_j_caron).
Proof.
  intros c Hs. unfold upper_char. destruct (is_ascii c) eqn:Hc.
  - split; [discriminate|]. intros d [<-|[]].
    now rewrite (isspace_ascii_upper c Hc).
  - simpl. destruct (c =? 496)%N.
    + split; [discriminate|]. intros d [<-|[<-|[]]]; reflexivity.
    + split; [discriminate|]. now intros d [<-|[]].
Qed.

Lemma unique_ids_preserved_witness :
  canonical_ids (U:=ucd_j_caron) (users j_caron_window)
  = [py "J"; py "AB12CD"] /\
  unique_ids (U:=ucd_j_caron)
    (users (snd (form_save (U:=ucd_j_caron) j_caron_window))) /\
  unique_ids (U:=ucd_j_caron)
    (users (snd (delete_user (U:=ucd_j_caron) (Some (py "ab12cd")) true
                   j_caron_window))).
Proof.
  split; [reflexivity|].
  destruct (unique_ids_preserved (U:=ucd_j_caron) j_caron_window
              (Some (py "ab12cd")) true
              j_caron_upper_idempotent j_caron_upper_alnum_no_space)
    as [[A _] [B _]].
  - repeat constructor.
  - repeat constructor; simpl; intuition discriminate.
  - split; assumption.
Defined.

(** ** Further properties of the serial worker *)

Section WorkerEdges.
Context {U : UnicodeData}.

Lemma run_loop_end (pre post : list turn) (t : turn) :
  ends_loop t = true ->
  forall q errs,
    run_loop (pre ++ t :: post) q errs = run_loop (pre ++ [t]) q errs /\
    snd (run_loop (pre ++ t :: post) q errs) = true.
Proof.
  intros Ht. induction pre as [|x pre IH]; intros q errs.
  - destruct t; simpl; try discriminate; auto.
  - destruct x as [|text|e]; simpl; auto.
    destruct (truthy (strip text)); [|apply IH].
    destruct (truthy (normalize_uid (strip text))); apply IH.
Qed.

(** Once the stop event is seen or a read has failed, the worker is done:
    what the port would deliver afterwards changes nothing, [run] has
    returned and the port is closed. *)
Theorem run_ends_at_stop_or_error
  (port : str) (pre post : list turn) (t : turn) (q : list str) :
  ends_loop t = true ->
  run port None (pre ++ t :: post) q = run port None (pre ++ [t]) q /\
  finished (run port None (pre ++ t :: post) q) = true /\
  ser_open (run port None (pre ++ t :: post) q) = false.
Proof.
  intros Ht. destruct (run_loop_end pre post t Ht q []) as [E D].
  unfold run. rewrite E in *.
  destruct (run_loop (pre ++ [t]) q []) as [[q' errs] done].
  simpl in D. subst done. auto.
Qed.

Lemma run_loop_errors (turns : list turn) :
  forall q errs,
    snd (fst (run_loop turns q errs)) = errs \/
    (exists m, snd (fst (run_loop turns q errs)) = errs ++ [m] /\
               snd (run_loop turns q errs) = true).
Proof.
  induction turns as [|t turns IH]; intros q errs; simpl; [now left|].
  destruct t as [|text|e]; simpl; [now left| |right; eauto].
  destruct (truthy (strip text)); [|apply IH].
  destruct (truthy (normalize_uid (strip text))); apply IH.
Qed.

(** The worker reports at most one error in its life, and when it has
    reported one it has returned with the port closed.  When the port
    cannot be opened it reads nothing: the queue is left as it was. *)
Theorem run_reports_at_most_once
  (port : str) (open_fails : option str) (turns : list turn) (q : list str) :
  let w := run port open_fails turns q in
  (List.length (reported w) <= 1)%nat /\
  (reported w <> [] -> finished w = true /\ ser_open w = false) /\
  (finished w = true -> ser_open w = false) /\
  (forall e, open_fails = Some e ->
     out_queue w = q /\ finished w = true /\
     reported w = [py "Gagal open port " ++ port ++ py ": " ++ e]).
Proof.
  unfold run. destruct open_fails as [e|].
  - simpl. split; [lia|]. split; [auto|]. split; [auto|].
    intros e' E. injection E as <-. auto.
  - pose proof (run_loop_errors turns q []) as H.
    destruct (run_loop turns q []) as [[q' errs] done]. simpl in *.
    split; [destruct H as [->|(m & -> & _)]; simpl; lia|].
    split.
    + intros Hne. destruct H as [->|(m & _ & ->)]; [contradiction|auto].
    + split; [now intros ->|]. intros e E. discriminate E.
Qed.

Lemma normalize_uid_nil : normalize_uid [] = [].
Proof. reflexivity. Qed.

Lemma run_loop_lines (texts : list str) (rest : list turn) :
  forall q errs,
    run_loop (map ReadLine texts ++ rest) q errs =
    run_loop rest (q ++ uids_of_lines texts) errs.
Proof.
  unfold uids_of_lines.
  induction texts as [|text texts IH]; intros q errs; simpl.
  - now rewrite app_nil_r.
  - destruct (truthy (strip text)) eqn:El.
    + destruct (truthy (normalize_uid (strip text))) eqn:Eu.
      * rewrite IH, <- app_assoc. reflexivity.
      * apply IH.
    + destruct (strip text); [|discriminate]. simpl. apply IH.
Qed.

(** The queue is first in, first out for the lines read: after the lines
    [texts] and before anything else happens, the worker has added the
    normal forms of the stripped lines that are not empty, in the order of
    the lines, behind what the queue held. *)
Theorem run_publishes_in_read_order
  (port : str) (texts : list str) (rest : list turn) (q : list str) :
  out_queue (run port None (map ReadLine texts ++ StopSet :: rest) q)
  = q ++ uids_of_lines texts /\
  forall q0 errs,
    run_loop (map ReadLine texts ++ rest) q0 errs =
    run_loop rest (q0 ++ uids_of_lines texts) errs.
Proof.
  split; [|apply run_loop_lines].
  unfold run. now rewrite run_loop_lines.
Qed.

Lemma upper_alnum_ascii (x : str) :
  is_ascii_str x = true ->
  forallb is_upper_alnum (map ascii_upper (filter isalnum x)) = true.
Proof.
  induction x as [|c x IH]; simpl; [reflexivity|].
  intros H. apply andb_true_iff in H as [Hc Hx].
  destruct (isalnum c) eqn:Ea; simpl; [|now apply IH].
  rewrite (isalnum_upper_alnum _ Hc Ea). now apply IH.
Qed.

(** When the lines read are ASCII text, every identifier the worker adds
    to the queue is a non-empty word over [A-Z] and [0-9]; in particular
    it is never the placeholder ["-"] of the label. *)
Theorem run_publishes_upper_alnum
  (port : str) (open_fails : option str) (turns : list turn) (q : list str) :
  forallb ascii_turn turns = true ->
  exists new,
    out_queue (run port open_fails turns q) = q ++ new /\
    Forall (fun uid_ => uid_ <> [] /\
                        forallb is_upper_alnum uid_ = true /\
                        uid_ <> py "-") new.
Proof.
  intros Ha. unfold run. destruct open_fails as [e|].
  - exists []. simpl. now rewrite app_nil_r.
  - destruct (run_loop_queue turns q []) as (new & E & Hnew).
    exists new. split.
    + destruct (run_loop turns q []) as [[q' errs] done]. exact E.
    + revert Hnew. apply Forall_impl.
      intros u (Hu & text & Hin & _ & ->).
      rewrite forallb_forall in Ha. specialize (Ha _ Hin). simpl in Ha.
      assert (Hs : is_ascii_str (strip text) = true)
        by (apply (is_ascii_str_incl text); [apply strip_incl | assumption]).
      assert (Hw : forallb is_upper_alnum (normalize_uid (strip text)) = true)
        by (rewrite (normalize_uid_ascii _ Hs); now apply upper_alnum_ascii).
      repeat split; try assumption.
      intros Eq. rewrite Eq in Hw. discriminate Hw.
Qed.

End WorkerEdges.

(** ** Further properties of saving and deleting *)

Section ProfileEdges.
Context {U : UnicodeData}.

Lemma save_users_ok (us : list user) (d : disk) :
  read_only (users_csv d) = false ->
  save_users us d =
  Ok {| users_csv := File true (users_header :: map user_row us);
        log_csv := log_csv d |}.
Proof.
  unfold save_users. destruct (users_csv d) as [|[|] rows]; simpl;
    congruence.
Qed.

Lemma refresh_tables_users (a : App) (us : list user) :
  load_users (files a) = Ok us ->
  users (snd (refresh_tables a)) = us /\
  files (snd (refresh_tables a)) = files a.
Proof.
  intros E. unfold refresh_tables, bind, get, lift, modify, ret.
  rewrite E. simpl.
  destruct (load_logs None (files a)) as [ls|e]; simpl; [|auto].
  destruct (rmap show_log (slice_from (-200) ls)); simpl; auto.
Qed.

(** What a successful [form_save] leaves: the list saved, as it comes
    back from the file, and the file that holds it. *)
Lemma form_save_saved (a : App) :
  form_filled a -> read_only (users_csv (files a)) = false ->
  users (snd (form_save a)) = map reloaded (form_users a) /\
  files (snd (form_save a)) =
  {| users_csv := File true (users_header :: map user_row (form_users a));
     log_csv := log_csv (files a) |}.
Proof.
  intros [Hu Hn] W. apply truthy_nonempty in Hu, Hn.
  unfold form_save, form_users, bind, get, modify. simpl.
  rewrite Hu, Hn. simpl.
  destruct (find_user_by_uid (users a) (normalize_uid (uid_var a)));
    unfold save_users_M; simpl; rewrite (save_users_ok _ _ W); simpl;
    match goal with |- context [refresh_tables ?s] =>
      apply (refresh_tables_users s);
      apply (load_users_saved _ (files a)); simpl;
      apply (save_users_ok _ _ W)
    end.
Qed.

Lemma delete_user_saved (v : str) (a : App) :
  read_only (users_csv (files a)) = false ->
  users (snd (delete_user (Some v) true a)) = map reloaded (users_without v a) /\
  files (snd (delete_user (Some v) true a)) =
  {| users_csv := File true (users_header :: map user_row (users_without v a));
     log_csv := log_csv (files a) |}.
Proof.
  intros W. unfold delete_user, users_without, bind, get, modify. simpl.
  unfold save_users_M. simpl. rewrite (save_users_ok _ _ W). simpl.
  match goal with |- context [refresh_tables ?s] =>
    apply (refresh_tables_users s);
    apply (load_users_saved _ (files a)); simpl;
    apply (save_users_ok _ _ W)
  end.
Qed.

(** [form_save] with no identifier in the form once normalized, or no
    name once stripped, shows one error and does nothing else: no profile
    is changed, no file is written, nothing is reloaded. *)
Theorem form_save_rejects_incomplete (a : App) :
  normalize_uid (uid_var a) = [] \/ strip (nama_var a) = [] ->
  form_save a =
  (Ok tt, show (showerror "Error" "UID dan Nama wajib diisi.") a).
Proof.
  intros H. unfold form_save, bind, get, modify. simpl.
  destruct H as [-> | ->]; simpl; [reflexivity|].
  now rewrite orb_true_r.
Qed.

(** After a [form_save] or a [delete_user] that could write the file, the
    list in memory is what the file holds: [load_users] returns it. *)
Theorem memory_is_file_after_save (a : App) :
  read_only (users_csv (files a)) = false ->
  (form_filled a ->
   load_users (files (snd (form_save a))) = Ok (users (snd (form_save a)))) /\
  (forall v,
   load_users (files (snd (delete_user (Some v) true a)))
   = Ok (users (snd (delete_user (Some v) true a)))).
Proof.
  intros W. split.
  - intros F. destruct (form_save_saved a F W) as [-> ->].
    apply (load_users_saved _ (files a)). apply (save_users_ok _ _ W).
  - intros v. destruct (delete_user_saved v a W) as [-> ->].
    apply (load_users_saved _ (files a)). apply (save_users_ok _ _ W).
Qed.

End ProfileEdges.

(** ** Looking up what was saved *)

Section SavedLookup.
Context {U : UnicodeData}.

Lemma is_upper_alnum_fixed (c : char) :
  is_upper_alnum c = true ->
  is_ascii c = true /\ isalnum c = true /\ ascii_upper c = c.
Proof.
  intros H.
  assert (Ha : is_ascii c = true).
  { unfold is_upper_alnum, is_upper_AZ, is_digit, between, is_ascii in *.
    apply N.ltb_lt. apply orb_true_iff in H as [H|H];
      apply andb_true_iff in H as [_ H]; apply N.leb_le in H; lia. }
  pose proof (ascii_cases
    (fun c => implb (is_upper_alnum c)
                (isalnum c && (ascii_upper c =? c)%N))
    ltac:(now vm_compute) c Ha) as E.
  simpl in E. rewrite H in E. simpl in E.
  apply andb_true_iff in E as [E1 E2]. apply N.eqb_eq in E2. auto.
Qed.

(** A word over [A-Z] and [0-9] is its own normal form. *)
Lemma normalize_uid_fixed (x : str) :
  forallb is_upper_alnum x = true -> normalize_uid x = x.
Proof.
  intros H.
  assert (Ha : is_ascii_str x = true /\ filter isalnum x = x /\
               map ascii_upper x = x).
  { induction x as [|c x IH]; simpl; [auto|].
    simpl in H. apply andb_true_iff in H as [Hc Hx].
    destruct (is_upper_alnum_fixed c Hc) as (A & B & C).
    destruct (IH Hx) as (A' & B' & C').
    rewrite A, A', B, B', C, C'. auto. }
  destruct Ha as (A & B & C).
  now rewrite (normalize_uid_ascii _ A), B, C.
Qed.

Lemma normalize_uid_normal (x : str) :
  is_ascii_str x = true ->
  normalize_uid (normalize_uid x) = normalize_uid x.
Proof.
  intros H. apply normalize_uid_fixed.
  rewrite (normalize_uid_ascii _ H). now apply upper_alnum_ascii.
Qed.

Lemma find_reloaded (us : list user) (x : str) :
  forallb ascii_uid us = true ->
  find_user_by_uid (map reloaded us) x =
  option_map reloaded (find_user_by_uid us x).
Proof.
  unfold find_user_by_uid. induction us as [|u us IH]; simpl; [reflexivity|].
  intros H. apply andb_true_iff in H as [Hu Hus].
  rewrite (proj1 (normalize_uid_reloaded _ Hu)).
  destruct (str_eqb (normalize_uid (uid u)) (normalize_uid x));
    [reflexivity | now apply IH].
Qed.

Lemma form_users_ascii (a : App) :
  forallb ascii_uid (users a) = true -> is_ascii_str (uid_var a) = true ->
  forallb ascii_uid (form_users a) = true.
Proof.
  intros Ha Hv. unfold form_users.
  destruct (find_user_by_uid (users a) (normalize_uid (uid_var a))).
  - now rewrite ascii_uid_update.
  - rewrite forallb_app, Ha. simpl. unfold ascii_uid. simpl.
    now rewrite (normalize_uid_ascii_str _ Hv).
Qed.

Lemma find_updated (x n m : str) (us : list user) :
  find (fun u => str_eqb (normalize_uid (uid u)) x) (update_users x n m us)
  = option_map (fun u => {| uid := uid u; nama := Some n; umur := Some m |})
      (find (fun u => str_eqb (normalize_uid (uid u)) x) us).
Proof.
  unfold update_users. induction us as [|u us IH]; simpl; [reflexivity|].
  destruct (str_eqb (normalize_uid (uid u)) x) eqn:E; simpl; rewrite E;
    [reflexivity | exact IH].
Qed.

Lemma find_app_none {A} (p : A -> bool) (l l' : list A) :
  find p l = None -> find p (l ++ l') = find p l'.
Proof.
  induction l as [|a l IH]; simpl; [reflexivity|].
  destruct (p a); [discriminate | exact IH].
Qed.

(** The profile of the form is found in the list [form_save] builds. *)
Lemma find_form_users (a : App) :
  is_ascii_str (uid_var a) = true ->
  exists u, find_user_by_uid (form_users a) (uid_var a) = Some u /\
    nama u = Some (strip (nama_var a)) /\
    umur u = Some (strip (umur_var a)).
Proof.
  intros Hv. unfold form_users, find_user_by_uid.
  rewrite (normalize_uid_normal _ Hv).
  destruct (find (fun u => str_eqb (normalize_uid (uid u))
                             (normalize_uid (uid_var a))) (users a))
    as [u0|] eqn:F.
  - rewrite find_updated, F. simpl. eauto.
  - rewrite (find_app_none _ _ _ F). simpl.
    rewrite (normalize_uid_normal _ Hv), str_eqb_refl. simpl. eauto.
Qed.

(** After a [form_save] that passed the check and could write the file,
    looking up the identifier of the form finds a profile with the name
    and the age of the form, stripped (ASCII identifiers). *)
Theorem form_save_then_found (a : App) :
  forallb ascii_uid (users a) = true ->
  is_ascii_str (uid_var a) = true ->
  form_filled a ->
  read_only (users_csv (files a)) = false ->
  exists u,
    find_user_by_uid (users (snd (form_save a))) (uid_var a) = Some u /\
    nama u = Some (strip (nama_var a)) /\
    umur u = Some (strip (umur_var a)).
Proof.
  intros Ha Hv F W. destruct (form_save_saved a F W) as [-> _].
  rewrite (find_reloaded _ _ (form_users_ascii a Ha Hv)).
  destruct (find_form_users a Hv) as (u & -> & Hn & Hm).
  exists (reloaded u). simpl. rewrite Hn, Hm. auto.
Qed.

(** [form_save] keeps the identifiers it found, in their order, and adds
    at most the identifier of the form, at the end (ASCII identifiers). *)
Theorem form_save_keeps_ids (a : App) :
  forallb ascii_uid (users a) = true ->
  is_ascii_str (uid_var a) = true ->
  form_filled a ->
  read_only (users_csv (files a)) = false ->
  canonical_ids (users (snd (form_save a))) =
  canonical_ids (users a) ++
  match find_user_by_uid (users a) (uid_var a) with
  | Some _ => []
  | None => [normalize_uid (uid_var a)]
  end.
Proof.
  intros Ha Hv F W. destruct (form_save_saved a F W) as [-> _].
  rewrite (canonical_ids_reloaded _ (form_users_ascii a Ha Hv)).
  unfold form_users.
  replace (find_user_by_uid (users a) (normalize_uid (uid_var a)))
    with (find_user_by_uid (users a) (uid_var a))
    by (unfold find_user_by_uid; now rewrite (normalize_uid_normal _ Hv)).
  destruct (find_user_by_uid (users a) (uid_var a)).
  - now rewrite canonical_ids_update, app_nil_r.
  - unfold canonical_ids. rewrite map_app. simpl.
    now rewrite (normalize_uid_normal _ Hv).
Qed.

Lemma find_filter_out (us : list user) (x v : str) :
  normalize_uid x = normalize_uid v ->
  find_user_by_uid
    (filter (fun u => negb (str_eqb (normalize_uid (uid u)) (normalize_uid v)))
            us) x = None.
Proof.
  intros E. unfold find_user_by_uid. rewrite E.
  induction us as [|u us IH]; simpl; [reflexivity|].
  destruct (str_eqb (normalize_uid (uid u)) (normalize_uid v)) eqn:F; simpl;
    [exact IH | now rewrite F].
Qed.

Lemma find_filter_other (us : list user) (y v : str) :
  normalize_uid y <> normalize_uid v ->
  find_user_by_uid
    (filter (fun u => negb (str_eqb (normalize_uid (uid u)) (normalize_uid v)))
            us) y = find_user_by_uid us y.
Proof.
  intros N. unfold find_user_by_uid.
  induction us as [|u us IH]; simpl; [reflexivity|].
  destruct (str_eqb (normalize_uid (uid u)) (normalize_uid v)) eqn:F; simpl.
  - apply str_eqb_eq in F.
    destruct (str_eqb (normalize_uid (uid u)) (normalize_uid y)) eqn:G;
      [|exact IH].
    apply str_eqb_eq in G. congruence.
  - destruct (str_eqb (normalize_uid (uid u)) (normalize_uid y));
      [reflexivity | exact IH].
Qed.

(** After a confirmed [delete_user] that could write the file, no profile
    matches the deleted identifier, however it is written, and a scan of
    it is put into the form like any unknown identifier (ASCII
    identifiers in the list). *)
Theorem deleted_uid_is_staged (a : App) (v x : str) :
  forallb ascii_uid (users a) = true ->
  read_only (users_csv (files a)) = false ->
  x <> [] -> normalize_uid x = normalize_uid v ->
  let a1 := snd (delete_user (Some v) true a) in
  find_user_by_uid (users a1) x = None /\
  drain [x] a1 =
  (Ok tt, ring_bell (set_uid_var x (set_uid_detected_var x
            (set_serial_queue (tl (serial_queue a1)) a1)))).
Proof.
  intros Ha W Hx E a1.
  assert (F : find_user_by_uid (users a1) x = None).
  { subst a1. destruct (delete_user_saved v a W) as [-> _].
    rewrite find_reloaded by (now apply ascii_uid_filter).
    unfold users_without. now rewrite (find_filter_out _ _ _ E). }
  split; [exact F|].
  rewrite (drain_one _ _ Hx). now apply on_uid_received_unknown.
Qed.

(** A confirmed [delete_user] that could write the file removes the
    matching profiles only: any other identifier is looked up as before,
    the profile coming back as the file holds it (ASCII identifiers in
    the list). *)
Theorem delete_user_keeps_others (a : App) (v y : str) :
  forallb ascii_uid (users a) = true ->
  read_only (users_csv (files a)) = false ->
  normalize_uid y <> normalize_uid v ->
  find_user_by_uid (users (snd (delete_user (Some v) true a))) y =
  option_map reloaded (find_user_by_uid (users a) y).
Proof.
  intros Ha W N. destruct (delete_user_saved v a W) as [-> _].
  rewrite find_reloaded by (now apply ascii_uid_filter).
  unfold users_without. now rewrite (find_filter_other _ _ _ N).
Qed.

End SavedLookup.

(** ** A whole tick of the coordinator *)

(** Reading the fields of a state built by the setters. *)
Ltac app_fields :=
  cbn [users logs uid_detected_var uid_var nama_var umur_var serial_queue
       bells dialogs files wall_clock clock_reads
       set_users set_logs set_uid_detected_var set_uid_var set_serial_queue
       ring_bell show set_files tick_clock users_csv log_csv].

Section Tick.
Context {U : UnicodeData}.

Lemma last_cons_default {A} (x d : A) (r : list A) :
  last (x :: r) d = last r x.
Proof.
  revert x d. induction r as [|y r IH]; intros x d; [reflexivity|].
  change (last (x :: y :: r) d) with (last (y :: r) d).
  now rewrite (IH y d), (IH y x).
Qed.

Lemma skipn_S_tl {A} (n : nat) (l : list A) :
  skipn (S n) l = skipn n (tl l).
Proof. destruct l; simpl; [now rewrite skipn_nil | reflexivity]. Qed.

(** A tick that drains unknown identifiers only: each one rings the bell,
    the last one stays in the form and on the label, the profiles, the
    logs and the files are untouched, and the tick ends normally with the
    identifiers gone from the queue. *)
Theorem drain_unknown_only (q : list str) (a : App) :
  Forall (fun x => x <> [] /\ find_user_by_uid (users a) x = None) q ->
  fst (drain q a) = Ok tt /\
  uid_var (snd (drain q a)) = last q (uid_var a) /\
  uid_detected_var (snd (drain q a)) = last q (uid_detected_var a) /\
  bells (snd (drain q a)) = (bells a + List.length q)%nat /\
  files (snd (drain q a)) = files a /\
  users (snd (drain q a)) = users a /\
  serial_queue (snd (drain q a)) = skipn (List.length q) (serial_queue a) /\
  logs (snd (drain q a)) = logs a.
Proof.
  revert a. induction q as [|x q IH]; intros a H.
  - simpl. repeat split. lia.
  - inversion H as [|? ? [Hx Fx] Hq]; subst.
    rewrite (drain_cons _ _ _ Hx).
    rewrite (on_uid_received_unknown x
               (set_serial_queue (tl (serial_queue a)) a) Fx).
    match goal with |- context [drain q ?s] =>
      destruct (IH s Hq) as (R & V & D & B & F & Us & Q & L) end.
    rewrite R, V, D, B, F, Us, Q, L.
    rewrite !last_cons_default. cbn [List.length]. rewrite skipn_S_tl.
    simpl. repeat split. lia.
Qed.

(** One turn of the loop of [drain]. *)
Lemma drain_step (x : str) (q : list str) (a : App) :
  drain (x :: q) a =
  match (if truthy x
         then on_uid_received x (set_serial_queue (tl (serial_queue a)) a)
         else (Ok tt, set_serial_queue (tl (serial_queue a)) a)) with
  | (Ok _, a') => drain q a'
  | (Raise e, a') => (Raise e, a')
  end.
Proof.
  cbn [drain]. unfold bind, modify, ret. now destruct (truthy x).
Qed.

Lemma load_users_users_csv (d d' : disk) :
  users_csv d' = users_csv d -> load_users d' = load_users d.
Proof. intros E. unfold load_users. now rewrite E. Qed.

Lemma show_logs_ok (recs : list AttendanceRecord) (n : Z) :
  exists r, rmap show_log (slice_from n (map record_dict recs)) = Ok r.
Proof.
  unfold slice_from. rewrite skipn_map.
  induction (skipn _ recs) as [|x l [r IH]]; simpl; [eauto|].
  rewrite IH. simpl. eauto.
Qed.

(** With files in order, [refresh_tables] returns normally with the list
    and the log of the files. *)
Lemma refresh_tables_ok (a : App) (us : list user) (w : bool)
  (recs : list AttendanceRecord) :
  load_users (files a) = Ok us ->
  log_csv (files a) = log_file w recs ->
  refresh_tables a = (Ok tt, set_logs (map record_dict recs) (set_users us a)).
Proof.
  intros Eu El. unfold refresh_tables, bind, get, lift, modify, ret.
  rewrite Eu. simpl. unfold load_logs. rewrite El. unfold log_file.
  simpl open_r. unfold rbind. rewrite DictReader_log.
  destruct (show_logs_ok recs (-200)) as [r ->]. reflexivity.
Qed.

Lemma on_uid_received_ok (x : str) (a : App) (u : user)
  (recs : list AttendanceRecord) :
  find_user_by_uid (users a) x = Some u ->
  load_users (files a) = Ok (users a) ->
  log_csv (files a) = log_file true recs ->
  let now_ := wall_clock a (clock_reads a) in
  let d' := {| users_csv := users_csv (files a);
               log_csv := log_file true (recs ++ [logged x (nama u) now_]) |} in
  on_uid_received x a =
  (Ok tt,
   set_logs (map record_dict (recs ++ [logged x (nama u) now_]))
     (set_users (users a)
        (tick_clock (set_files d' (set_uid_detected_var x a))))).
Proof.
  intros F Eu El now_ d'.
  unfold on_uid_received, bind, get, modify. simpl. rewrite F.
  unfold append_log_M. simpl.
  rewrite append_log_rows by (now rewrite El).
  rewrite El. simpl.
  change (File true (log_header :: map record_row recs ++
                     [record_row (logged x (nama u) (wall_clock a (clock_reads a)))]))
    with (File true (log_header :: map record_row recs ++
                     map record_row [logged x (nama u) now_])).
  rewrite <- map_app.
  match goal with |- context [refresh_tables ?s] =>
    rewrite (refresh_tables_ok s (users a) true (recs ++ [logged x (nama u) now_]))
  end.
  - reflexivity.
  - simpl. rewrite <- Eu. now apply load_users_users_csv.
  - reflexivity.
Qed.

(** A tick on files in order (the list in memory is the one of the file,
    the log is a header and records): it ends normally, the log has gained
    one record for each drained identifier that is not empty and has a
    profile, in the order of the queue and with successive readings of the
    clock; the bell has rung once for each one that is not empty and has
    none; the profiles are as before. *)
Theorem drain_logs_the_known (q : list str) (a : App)
  (recs : list AttendanceRecord) :
  load_users (files a) = Ok (users a) ->
  log_csv (files a) = log_file true recs ->
  let new := attendance_of (users a) (wall_clock a) (clock_reads a) q in
  fst (drain q a) = Ok tt /\
  log_csv (files (snd (drain q a))) = log_file true (recs ++ new) /\
  users_csv (files (snd (drain q a))) = users_csv (files a) /\
  users (snd (drain q a)) = users a /\
  bells (snd (drain q a)) =
    (bells a + List.length (unknown_of (users a) q))%nat /\
  clock_reads (snd (drain q a)) = (clock_reads a + List.length new)%nat.
Proof.
  revert a recs. induction q as [|x q IH]; intros a recs Eu El new.
  - simpl. rewrite app_nil_r. repeat split; try assumption; lia.
  - subst new. rewrite drain_step.
    cbn [attendance_of]. unfold unknown_of. cbn [filter].
    fold (unknown_of (users a) q).
    destruct (truthy x) eqn:Tx.
    + destruct (find_user_by_uid (users a) x) as [u|] eqn:F.
      * rewrite (on_uid_received_ok x
                   (set_serial_queue (tl (serial_queue a)) a) u recs F Eu El).
        cbv beta iota zeta.
        match goal with |- context [drain q ?s] => set (s1 := s) end.
        destruct (IH s1 (recs ++ [logged x (nama u)
                    (wall_clock a (clock_reads a))]))
          as (R & L & Uc & Us & B & C).
        -- subst s1. app_fields. rewrite <- Eu.
           now apply load_users_users_csv.
        -- reflexivity.
        -- rewrite R, L, Uc, Us, B, C. subst s1. app_fields.
           rewrite <- app_assoc. cbn [andb List.length app].
           repeat split. lia.
      * rewrite (on_uid_received_unknown x
                   (set_serial_queue (tl (serial_queue a)) a) F).
        cbv beta iota zeta.
        match goal with |- context [drain q ?s] => set (s1 := s) end.
        destruct (IH s1 recs Eu El) as (R & L & Uc & Us & B & C).
        rewrite R, L, Uc, Us, B, C. subst s1. app_fields.
        cbn [andb List.length]. repeat split. lia.
    + cbv beta iota zeta.
      match goal with |- context [drain q ?s] => set (s1 := s) end.
      destruct (IH s1 recs Eu El) as (R & L & Uc & Us & B & C).
      rewrite R, L, Uc, Us, B, C. subst s1. app_fields.
      cbn [andb]. repeat split.
Qed.

(** When the log cannot be written, a scan of a known identifier raises
    out of the tick: the identifier has left the queue and is shown on the
    label, but it is neither logged nor put into the form, the bell does
    not ring, and the identifiers behind it stay in the queue. *)
Theorem drain_stops_at_failed_write
  (x : str) (rest : list str) (a : App) (u : user) :
  x <> [] ->
  find_user_by_uid (users a) x = Some u ->
  read_only (log_csv (files a)) = true ->
  drain (x :: rest) a =
  (Raise (PermissionError LOG_CSV),
   set_uid_detected_var x (set_serial_queue (tl (serial_queue a)) a)).
Proof.
  intros Hx F W. rewrite (drain_cons _ _ _ Hx).
  unfold on_uid_received, bind, get, modify. simpl. rewrite F.
  unfold append_log_M, append_log. simpl.
  destruct (log_csv (files a)) as [|[|] rows]; try discriminate.
  reflexivity.
Qed.

End Tick.

(** ** The attendance buttons *)

Section AttendanceButtons.
Context {U : UnicodeData}.

(** Logging from a button: one record is written to a log that can be
    written, whatever [refresh_tables] does afterwards. *)
Lemma log_attendance_appends (x : str) (n : pyval) (a : App) :
  read_only (log_csv (files a)) = false ->
  records (log_csv (files (snd (log_attendance x n a)))) =
    records (log_csv (files a))
    ++ [record_row (logged x n (wall_clock a (clock_reads a)))] /\
  users_csv (files (snd (log_attendance x n a))) = users_csv (files a) /\
  same_inputs a (snd (log_attendance x n a)).
Proof.
  intros W. unfold log_attendance, bind, append_log_M.
  rewrite (append_log_rows _ _ _ _ W).
  match goal with |- context [refresh_tables ?s] =>
    destruct (refresh_tables_frame s) as ((Hf & _) & Hi & _);
    destruct (refresh_tables s) as [r a'] end.
  simpl in *. rewrite Hf. simpl. rewrite records_appended. auto.
Qed.

Lemma log_and_tell_core (x : str) (u : user) (w : Window) :
  core (snd (log_and_tell x (Some u) w))
  = snd (log_attendance x (nama u) (core w)).
Proof.
  unfold log_and_tell, in_app.
  now destruct (log_attendance x (nama u) (core w)) as [[[]|e] a'].
Qed.

(** The button [Absen UID Terdeteksi]: with no identifier on the label it
    only says so; with an identifier that has no profile it warns and puts
    the identifier into the form, writing nothing; with an identifier that
    has a profile it appends one record with the name of that profile to a
    log that can be written, and leaves the form alone. *)
Theorem absen_uid_terdeteksi_outcomes (w : Window) :
  let uid_ := uid_detected_var (core w) in
  (uid_ = [] \/ uid_ = py "-" ->
   absen_uid_terdeteksi w =
   (Returns, add_box (info_box "Info" (py "Belum ada UID terdeteksi.")) w)) /\
  (uid_ <> [] -> uid_ <> py "-" ->
   find_user_by_uid (users (core w)) uid_ = None ->
   absen_uid_terdeteksi w =
   (Returns,
    set_core (set_uid_var uid_ (core w))
      (add_box (warning_box "Tidak Terdaftar"
         (py "UID belum terdaftar. Daftarkan dulu di form pengguna.")) w))) /\
  (forall u, uid_ <> [] -> uid_ <> py "-" ->
   find_user_by_uid (users (core w)) uid_ = Some u ->
   read_only (log_csv (files (core w))) = false ->
   records (log_csv (files (core (snd (absen_uid_terdeteksi w))))) =
     records (log_csv (files (core w)))
     ++ [record_row (logged uid_ (nama u)
           (wall_clock (core w) (clock_reads (core w))))] /\
   uid_var (core (snd (absen_uid_terdeteksi w))) = uid_var (core w)).
Proof.
  intros uid_. unfold absen_uid_terdeteksi. fold uid_. repeat split.
  - intros [-> | ->]; reflexivity.
  - intros H1 H2 F. apply truthy_nonempty in H1. apply str_eqb_neq in H2.
    now rewrite H1, H2, F.
  - apply truthy_nonempty in H. apply str_eqb_neq in H0.
    rewrite H, H0, H1. cbn [negb orb]. rewrite log_and_tell_core.
    now apply log_attendance_appends.
  - apply truthy_nonempty in H. apply str_eqb_neq in H0.
    rewrite H, H0, H1. cbn [negb orb]. rewrite log_and_tell_core.
    now apply log_attendance_appends.
Qed.

(** The button [Absen user pada Form] when nothing is to be saved: with
    no identifier in the form it only shows an error; with an identifier
    that has no profile and no name in the form it only warns; with an
    identifier that has a profile it appends one record to a log that can
    be written, with the name of the profile and not the name in the
    form. *)
Theorem absen_user_on_form_outcomes (w : Window) :
  let uid_ := normalize_uid (uid_var (core w)) in
  (uid_ = [] ->
   absen_user_on_form w =
   (Returns, add_box (error_box "Error" (py "Form belum berisi UID.")) w)) /\
  (uid_ <> [] -> find_user_by_uid (users (core w)) uid_ = None ->
   strip (nama_var (core w)) = [] ->
   absen_user_on_form w =
   (Returns,
    add_box (warning_box "Tidak Terdaftar"
      (py "Isi nama & simpan terlebih dahulu, lalu absen.")) w)) /\
  (forall u, uid_ <> [] ->
   find_user_by_uid (users (core w)) uid_ = Some u ->
   read_only (log_csv (files (core w))) = false ->
   records (log_csv (files (core (snd (absen_user_on_form w))))) =
     records (log_csv (files (core w)))
     ++ [record_row (logged uid_ (nama u)
           (wall_clock (core w) (clock_reads (core w))))] /\
   users_csv (files (core (snd (absen_user_on_form w))))
   = users_csv (files (core w))).
Proof.
  intros uid_. unfold absen_user_on_form. fold uid_. repeat split.
  - intros ->. reflexivity.
  - intros H F N. apply truthy_nonempty in H. now rewrite H, F, N.
  - apply truthy_nonempty in H. rewrite H, H0. cbn [negb].
    rewrite log_and_tell_core. now apply log_attendance_appends.
  - apply truthy_nonempty in H. rewrite H, H0. cbn [negb].
    rewrite log_and_tell_core. now apply log_attendance_appends.
Qed.

End AttendanceButtons.

(** ** Registering and logging in one click *)

Section Register.
Context {U : UnicodeData}.

Lemma log_attendance_ok (x : str) (n : pyval) (a : App)
  (recs : list AttendanceRecord) :
  load_users (files a) = Ok (users a) ->
  log_csv (files a) = log_file true recs ->
  log_attendance x n a =
  (Ok tt,
   set_logs (map record_dict
               (recs ++ [logged x n (wall_clock a (clock_reads a))]))
     (set_users (users a)
        (tick_clock
           (set_files
              {| users_csv := users_csv (files a);
                 log_csv := log_file true
                   (recs ++ [logged x n (wall_clock a (clock_reads a))]) |}
              a)))).
Proof.
  intros Eu El. unfold log_attendance, bind, append_log_M.
  rewrite append_log_rows by (now rewrite El).
  rewrite El. simpl content. cbn [tell_is_0].
  change (File true ((log_header :: map record_row recs) ++
            [record_row (logged x n (wall_clock a (clock_reads a)))]))
    with (File true (log_header :: map record_row recs ++
            map record_row [logged x n (wall_clock a (clock_reads a))])).
  rewrite <- map_app.
  match goal with |- context [refresh_tables ?s] =>
    rewrite (refresh_tables_ok s (users a) true
               (recs ++ [logged x n (wall_clock a (clock_reads a))]))
  end.
  - reflexivity.
  - simpl. rewrite <- Eu. now apply load_users_users_csv.
  - reflexivity.
Qed.

(** [form_save] on files in order returns normally. *)
Lemma form_save_ok (a : App) (w : bool) (recs : list AttendanceRecord) :
  form_filled a -> read_only (users_csv (files a)) = false ->
  log_csv (files a) = log_file w recs ->
  fst (form_save a) = Ok tt /\
  wall_clock (snd (form_save a)) = wall_clock a /\
  clock_reads (snd (form_save a)) = clock_reads a.
Proof.
  intros [Hu Hn] W El. apply truthy_nonempty in Hu, Hn.
  unfold form_save, bind, get, modify. simpl.
  rewrite Hu, Hn. simpl.
  destruct (find_user_by_uid (users a) (normalize_uid (uid_var a)));
    unfold save_users_M; simpl; rewrite (save_users_ok _ _ W); simpl;
    match goal with |- context [refresh_tables ?s] =>
      rewrite (refresh_tables_ok s (map reloaded (users s)) w recs);
      [ simpl; auto
      | apply (load_users_saved _ (files a)); simpl;
        apply (save_users_ok _ _ W)
      | exact El ]
    end.
Qed.

Lemma find_normalized (us : list user) (x : str) :
  is_ascii_str x = true ->
  find_user_by_uid us (normalize_uid x) = find_user_by_uid us x.
Proof.
  intros H. unfold find_user_by_uid. now rewrite (normalize_uid_normal _ H).
Qed.

(** The button [Absen user pada Form] for a new person: with profiles of
    ASCII identifiers, an ASCII identifier that has no profile among them,
    a name in the form and files in order, one click saves the profile and
    appends one record with the name of the form, stripped, and the click
    returns normally. *)
Theorem absen_user_on_form_registers (w : Window)
  (recs : list AttendanceRecord) :
  forallb ascii_uid (users (core w)) = true ->
  is_ascii_str (uid_var (core w)) = true ->
  form_filled (core w) ->
  find_user_by_uid (users (core w)) (uid_var (core w)) = None ->
  read_only (users_csv (files (core w))) = false ->
  log_csv (files (core w)) = log_file true recs ->
  fst (absen_user_on_form w) = Returns /\
  users_csv (files (core (snd (absen_user_on_form w)))) =
    File true (users_header :: map user_row
      (users (core w) ++
       [{| uid := normalize_uid (uid_var (core w));
           nama := Some (strip (nama_var (core w)));
           umur := Some (strip (umur_var (core w))) |}])) /\
  log_csv (files (core (snd (absen_user_on_form w)))) =
    log_file true
      (recs ++ [logged (normalize_uid (uid_var (core w)))
                  (Some (strip (nama_var (core w))))
                  (wall_clock (core w) (clock_reads (core w)))]) /\
  exists u,
    find_user_by_uid (users (core (snd (absen_user_on_form w))))
      (uid_var (core w)) = Some u /\
    nama u = Some (strip (nama_var (core w))).
Proof.
  intros Ha Hv F N W El.
  assert (N' : find_user_by_uid (users (core w))
                 (normalize_uid (uid_var (core w))) = None)
    by now rewrite (find_normalized _ _ Hv).
  assert (FU : form_users (core w) =
               users (core w) ++
               [{| uid := normalize_uid (uid_var (core w));
                   nama := Some (strip (nama_var (core w)));
                   umur := Some (strip (umur_var (core w))) |}])
    by (unfold form_users; now rewrite N').
  destruct (form_save_saved (core w) F W) as [Su Sf].
  destruct (form_save_ok (core w) true recs F W El) as (Sr & Sc & Sn).
  destruct (find_form_users (core w) Hv) as (u & Fu & Hn & _).
  pose proof (form_users_ascii (core w) Ha Hv) as Hfa.
  destruct (form_save (core w)) as [r a1] eqn:Efs. cbn [fst snd] in *.
  subst r.
  assert (L1 : load_users (files a1) = Ok (users a1)).
  { rewrite Su, Sf. apply (load_users_saved _ (files (core w))).
    apply (save_users_ok _ _ W). }
  assert (L2 : log_csv (files a1) = log_file true recs)
    by (rewrite Sf; exact El).
  pose proof (log_attendance_ok (normalize_uid (uid_var (core w)))
                (nama (reloaded u)) a1 recs L1 L2) as LA.
  assert (E : absen_user_on_form w =
    (Returns,
     add_box (info_box "Absen"
                (py "Absensi tercatat untuk " ++ format (nama (reloaded u))))
       (set_core
          (snd (log_attendance (normalize_uid (uid_var (core w)))
                  (nama (reloaded u)) a1))
          (set_core a1 w)))).
  { unfold absen_user_on_form.
    destruct F as [F1 F2]. apply truthy_nonempty in F1, F2.
    rewrite F1, N', F2. cbn [negb].
    unfold in_app at 1. rewrite Efs. cbn [core set_core].
    rewrite Su, (find_normalized _ _ Hv), (find_reloaded _ _ Hfa), Fu.
    cbn [option_map]. unfold log_and_tell, in_app. cbn [core set_core].
    rewrite LA. reflexivity. }
  rewrite E. cbn [fst snd core set_core add_box]. rewrite LA.
  cbn [snd]. app_fields.
  assert (Hr : nama (reloaded u) = Some (strip (nama_var (core w))))
    by (simpl; now rewrite Hn).
  rewrite Sf, Sc, Sn, Hr. cbn [users_csv]. rewrite FU.
  split; [reflexivity|]. split; [reflexivity|]. split; [reflexivity|].
  exists (reloaded u). split; [|exact Hr].
  now rewrite Su, (find_reloaded _ _ Hfa), Fu.
Qed.

End Register.

(** ** Connecting and disconnecting *)

Lemma click_invariant (a : App) (port_ : str) (c : click) (w : Window) :
  wired a port_ w -> wired a port_ (do_click c w).
Proof.
  unfold wired, holds. intros (Hc & Hp & Hl & Hs).
  destruct c; simpl; unfold connect, disconnect.
  - destruct (reader w) eqn:R; simpl; [rewrite R; auto|].
    destruct (truthy (port_var w)) eqn:T; simpl; [|rewrite R; auto].
    destruct (serial_module w); simpl; [|rewrite R; auto].
    repeat split; try assumption.
    + rewrite length_app. simpl. lia.
    + apply Forall_app. split; [assumption|]. constructor; [|constructor].
      rewrite Hp in *. split; [reflexivity|].
      now apply truthy_nonempty.
  - destruct (reader w) eqn:R; simpl; [|rewrite R; auto].
    repeat split; try assumption. lia.
Qed.

Lemma clicks_invariant (a : App) (port_ : str) (clicks : list click) :
  forall w, wired a port_ w ->
            wired a port_ (fold_left (fun w c => do_click c w) clicks w).
Proof.
  induction clicks as [|c cs IH]; intros w H; [exact H|].
  simpl. apply IH. now apply click_invariant.
Qed.

(** Whatever the clicks on [Connect] and [Disconnect], the workers started
    are the workers stopped plus the one the window holds, if it holds
    one: no second worker runs beside it.  Each worker was started on the
    port chosen, which was not empty, at 9600 baud, and the clicks change
    nothing of the attendance state. *)
Theorem one_reader_at_a_time
  (a : App) (port_ : str) (installed : bool) (clicks : list click) :
  let w := fold_left (fun w c => do_click c w) clicks
             (open_window a port_ installed) in
  List.length (started w) = (stops w + holds w)%nat /\
  (holds w <= 1)%nat /\
  Forall (fun r => r = {| port := port_; baud := BAUDRATE |} /\ port_ <> [])
         (started w) /\
  core w = a.
Proof.
  intros w.
  assert (I : wired a port_ w).
  { apply clicks_invariant. unfold wired, holds. simpl.
    repeat split. constructor. }
  destruct I as (Hc & _ & Hl & Hs). repeat split; try assumption.
  unfold holds. destruct (reader w); lia.
Qed.

(** ** The LED panel *)

Lemma last_of_snoc (on off b : N) (l : list N) :
  last_of on off (l ++ [b]) =
  if (b =? on)%N || (b =? off)%N then Some b else last_of on off l.
Proof.
  induction l as [|x l IH]; simpl.
  - now destruct ((b =? on)%N || (b =? off)%N).
  - rewrite IH. destruct ((b =? on)%N || (b =? off)%N); [reflexivity|].
    reflexivity.
Qed.

Lemma pressed_invariant (e : press) (p : panel) :
  (red_var p = true <-> last_of 82 114 (written p) = Some 82%N) /\
  (green_var p = true <-> last_of 71 103 (written p) = Some 71%N) ->
  (red_var (pressed e p) = true <->
   last_of 82 114 (written (pressed e p)) = Some 82%N) /\
  (green_var (pressed e p) = true <->
   last_of 71 103 (written (pressed e p)) = Some 71%N) /\
  List.length (written (pressed e p)) = S (List.length (written p)).
Proof.
  intros [Hr Hg].
  destruct p as [r g l]. simpl in Hr, Hg.
  destruct e; unfold pressed, toggle_red, toggle_green, blink_mode,
    speed_up, default_speed, arduino_write; cbn [red_var green_var written].
  - destruct r; cbn [negb red_var green_var written];
      rewrite !last_of_snoc, length_app; simpl;
      (split; [split; congruence | split; [assumption | lia]]).
  - destruct g; cbn [negb red_var green_var written];
      rewrite !last_of_snoc, length_app; simpl;
      (split; [assumption | split; [split; congruence | lia]]).
  - rewrite !last_of_snoc, length_app; simpl.
    split; [assumption | split; [assumption | lia]].
  - rewrite !last_of_snoc, length_app; simpl.
    split; [assumption | split; [assumption | lia]].
  - rewrite !last_of_snoc, length_app; simpl.
    split; [assumption | split; [assumption | lia]].
Qed.

(** Whatever is pressed on the panel from its start, each press writes one
    byte to the board, the red switch is on exactly when the last red
    command written is [R], and the green switch is on exactly when the
    last green command written is [G]. *)
Theorem switches_match_last_command (presses : list press) :
  let p := fold_left (fun p e => pressed e p) presses panel0 in
  (red_var p = true <-> last_of 82 114 (written p) = Some 82%N) /\
  (green_var p = true <-> last_of 71 103 (written p) = Some 71%N) /\
  List.length (written p) = List.length presses.
Proof.
  assert (G : forall p0,
    (red_var p0 = true <-> last_of 82 114 (written p0) = Some 82%N) /\
    (green_var p0 = true <-> last_of 71 103 (written p0) = Some 71%N) ->
    let p := fold_left (fun p e => pressed e p) presses p0 in
    (red_var p = true <-> last_of 82 114 (written p) = Some 82%N) /\
    (green_var p = true <-> last_of 71 103 (written p) = Some 71%N) /\
    List.length (written p)
    = (List.length (written p0) + List.length presses)%nat).
  { induction presses as [|e es IH]; intros p0 H0.
    - simpl. destruct H0 as [A B].
      split; [exact A | split; [exact B | lia]].
    - simpl. destruct (pressed_invariant e p0 H0) as (Hr & Hg & Hl).
      destruct (IH (pressed e p0) (conj Hr Hg)) as (Hr' & Hg' & Hl').
      split; [exact Hr' | split; [exact Hg' |]].
      rewrite Hl', Hl. simpl. lia. }
  apply (G panel0). simpl. split; split; discriminate.
Qed.

(** ** From an unknown scan to a logged one *)

Section Registration.
Context {U : UnicodeData}.

Lemma form_save_clock (a : App) :
  wall_clock (snd (form_save a)) = wall_clock a /\
  clock_reads (snd (form_save a)) = clock_reads a.
Proof.
  unfold form_save, bind, get, modify. simpl.
  destruct (negb (truthy (normalize_uid (uid_var a)))
            || negb (truthy (strip (nama_var a)))); simpl; [auto|].
  destruct (find_user_by_uid (users a) (normalize_uid (uid_var a))); simpl;
    unfold save_users_M; simpl;
    match goal with |- context [save_users ?us ?d] =>
      destruct (save_users us d) end; simpl; auto;
    match goal with |- context [refresh_tables ?s] =>
      destruct (refresh_tables_frame s) as ((_ & Hw & Hc) & _);
      rewrite Hw, Hc; auto
    end.
Qed.

(** The state that [form_save] finds after the scan of an unknown
    identifier [x] and the buttons [Tambah Baru] and [Assign UID ke Form]:
    [x] is back in the form. *)
Lemma scanned_then_assigned (x : str) (a : App) :
  x <> [] -> x <> py "-" ->
  find_user_by_uid (users a) x = None ->
  let a2 := snd (assign_uid_to_form (snd (form_new (snd (drain [x] a))))) in
  uid_var a2 = x /\ users a2 = users a /\ files a2 = files a /\
  wall_clock a2 = wall_clock a /\ clock_reads a2 = clock_reads a.
Proof.
  intros Hx Hd F. rewrite (drain_one _ _ Hx).
  rewrite (on_uid_received_unknown x
             (set_serial_queue (tl (serial_queue a)) a) F).
  unfold assign_uid_to_form, form_new, bind, get, modify. simpl.
  apply truthy_nonempty in Hx. apply str_eqb_neq in Hd.
  rewrite Hx, Hd. simpl. auto.
Qed.

(** With profiles of ASCII identifiers, an identifier over [A-Z0-9] that
    is scanned with no profile for it, then registered with a name from
    the form, is logged by its next scan, with that name stripped; the
    first scan writes nothing to the log. *)
Theorem registered_then_logged (x n : str) (a : App) :
  x <> [] -> forallb is_upper_alnum x = true ->
  forallb ascii_uid (users a) = true ->
  find_user_by_uid (users a) x = None ->
  strip n <> [] ->
  read_only (users_csv (files a)) = false ->
  read_only (log_csv (files a)) = false ->
  files (snd (drain [x] a)) = files a /\
  records (log_csv (files (snd (drain [x] (register_scanned x n a))))) =
    records (log_csv (files a))
    ++ [record_row (logged x (Some (strip n)) (wall_clock a (clock_reads a)))].
Proof.
  intros Hx Hw Ha F Hn Wu Wl.
  assert (Hd : x <> py "-").
  { intros E. rewrite E in Hw. discriminate Hw. }
  assert (Hxa : is_ascii_str x = true).
  { unfold is_ascii_str. rewrite forallb_forall in *. intros c Hc.
    now apply is_upper_alnum_fixed, Hw. }
  split.
  { rewrite (drain_one _ _ Hx).
    now rewrite (on_uid_received_unknown x
                   (set_serial_queue (tl (serial_queue a)) a) F). }
  unfold register_scanned.
  destruct (scanned_then_assigned x a Hx Hd F) as (Ev & Eu & Ef & Ew & Ec).
  set (a2 := snd (assign_uid_to_form (snd (form_new (snd (drain [x] a))))))
    in *.
  set (a3 := type_name n a2).
  assert (Ff : form_filled a3).
  { unfold form_filled, a3. simpl. rewrite Ev, (normalize_uid_fixed _ Hw).
    auto. }
  assert (W3 : read_only (users_csv (files a3)) = false)
    by (unfold a3; simpl; now rewrite Ef).
  assert (A3 : forallb ascii_uid (users a3) = true)
    by (unfold a3; simpl; now rewrite Eu).
  assert (V3 : is_ascii_str (uid_var a3) = true)
    by (unfold a3; simpl; now rewrite Ev).
  destruct (form_save_saved a3 Ff W3) as [Su Sf].
  destruct (form_save_clock a3) as [Sw Sc].
  destruct (find_form_users a3 V3) as (u & Fu & Hnu & _).
  assert (Fx : find_user_by_uid (users (snd (form_save a3))) x
               = Some (reloaded u)).
  { assert (Ev3 : uid_var a3 = x) by exact Ev.
    rewrite Ev3 in Fu.
    now rewrite Su, (find_reloaded _ _ (form_users_ascii a3 A3 V3)), Fu. }
  rewrite (drain_one _ _ Hx).
  set (a4 := set_serial_queue (tl (serial_queue (snd (form_save a3))))
               (snd (form_save a3))).
  assert (W4 : read_only (log_csv (files a4)) = false).
  { unfold a4. simpl. rewrite Sf. unfold a3. simpl. now rewrite Ef. }
  destruct (on_uid_received_known x a4 (reloaded u) Fx W4) as (R & _).
  rewrite R. unfold a4. simpl. rewrite Sf, Sw, Sc. unfold a3. simpl.
  rewrite Ef, Ew, Ec, Hnu. reflexivity.
Qed.

End Registration.

(** ** Runs of the further properties *)

Lemma load_users_normal_ids_witness :
  Forall (fun u => is_ascii_str (uid u) = true /\
                   no_lower (uid u) = true /\
                   trimmed (U:=ucd_j_caron) (uid u) = true)
         [alice].
Proof.
  apply (load_users_normal_ids (U:=ucd_j_caron)
    {| users_csv := File true
         [users_header; [py " ab12cd "; py "Alice"; py "30"]];
       log_csv := Absent |} [alice]); reflexivity.
Defined.

Lemma stored_profiles_round_trip_witness :
  load_users (U:=ucd_j_caron) alice_disk = Ok [alice].
Proof.
  apply (stored_profiles_round_trip (U:=ucd_j_caron) [alice]
           {| users_csv := Absent; log_csv := log_file true [] |} alice_disk);
    reflexivity.
Defined.

Lemma load_logs_negative_limit_witness :
  load_logs (Some (-1)%Z)
    {| users_csv := Absent; log_csv := log_file true two_records |}
  = Ok (map record_dict (skipn 1 two_records)).
Proof.
  exact (load_logs_negative_limit two_records true Absent (-1)%Z
           ltac:(reflexivity)).
Defined.

Lemma run_ends_at_stop_or_error_witness :
  run (U:=ucd_j_caron) (py "COM3") None
    ([ReadLine scan_ab12cd] ++ StopSet :: [ReadLine scan_ab12cd]) []
  = run (U:=ucd_j_caron) (py "COM3") None
      ([ReadLine scan_ab12cd] ++ [StopSet]) [].
Proof.
  exact (proj1 (run_ends_at_stop_or_error (U:=ucd_j_caron) (py "COM3")
                  [ReadLine scan_ab12cd] [ReadLine scan_ab12cd] StopSet []
                  eq_refl)).
Defined.

Lemma run_publishes_upper_alnum_witness :
  exists new,
    out_queue (run (U:=ucd_j_caron) (py "COM3") None
                 [ReadLine scan_ab12cd; StopSet] []) = [] ++ new /\
    Forall (fun uid_ => uid_ <> [] /\
                        forallb is_upper_alnum uid_ = true /\
                        uid_ <> py "-") new.
Proof.
  exact (run_publishes_upper_alnum (U:=ucd_j_caron) (py "COM3") None
           [ReadLine scan_ab12cd; StopSet] [] eq_refl).
Defined.

Lemma form_save_rejects_incomplete_witness :
  form_save (U:=ucd_j_caron) (alice_window (py " -- ") (py "Budi")) =
  (Ok tt, show (showerror "Error" "UID dan Nama wajib diisi.")
            (alice_window (py " -- ") (py "Budi"))).
Proof.
  apply (form_save_rejects_incomplete (U:=ucd_j_caron)
           (alice_window (py " -- ") (py "Budi"))).
  left. reflexivity.
Defined.

Lemma memory_is_file_after_save_witness :
  load_users (U:=ucd_j_caron)
    (files (snd (form_save (U:=ucd_j_caron)
                   (alice_window (py "77 ff 01") (py "Budi")))))
  = Ok (users (snd (form_save (U:=ucd_j_caron)
                      (alice_window (py "77 ff 01") (py "Budi"))))).
Proof.
  apply (proj1 (memory_is_file_after_save (U:=ucd_j_caron)
                  (alice_window (py "77 ff 01") (py "Budi")) eq_refl)).
  split; discriminate.
Defined.

Lemma form_save_then_found_witness :
  exists u,
    find_user_by_uid (U:=ucd_j_caron)
      (users (snd (form_save (U:=ucd_j_caron)
                     (alice_window (py "77 ff 01") (py " Budi ")))))
      (py "77 ff 01") = Some u /\
    nama u = Some (py "Budi") /\ umur u = Some [].
Proof.
  apply (form_save_then_found (U:=ucd_j_caron)
           (alice_window (py "77 ff 01") (py " Budi ")));
    try reflexivity.
  split; discriminate.
Defined.

Lemma form_save_keeps_ids_witness :
  canonical_ids (U:=ucd_j_caron)
    (users (snd (form_save (U:=ucd_j_caron)
                   (alice_window (py "77 ff 01") (py "Budi")))))
  = [py "AB12CD"; py "77FF01"].
Proof.
  apply (form_save_keeps_ids (U:=ucd_j_caron)
           (alice_window (py "77 ff 01") (py "Budi")));
    try reflexivity.
  split; discriminate.
Defined.

Lemma deleted_uid_is_staged_witness :
  find_user_by_uid (U:=ucd_j_caron)
    (users (snd (delete_user (U:=ucd_j_caron) (Some (py "AB12CD")) true
                   (alice_window [] []))))
    (py "ab-12-cd") = None.
Proof.
  apply (deleted_uid_is_staged (U:=ucd_j_caron) (alice_window [] [])
           (py "AB12CD") (py "ab-12-cd")); try reflexivity.
  discriminate.
Defined.

Lemma delete_user_keeps_others_witness :
  find_user_by_uid (U:=ucd_j_caron)
    (users (snd (delete_user (U:=ucd_j_caron) (Some (py "77FF01")) true
                   (alice_window [] []))))
    (py "ab12cd")
  = option_map (reloaded (U:=ucd_j_caron))
      (find_user_by_uid (U:=ucd_j_caron) (users (alice_window [] []))
         (py "ab12cd")).
Proof.
  apply (delete_user_keeps_others (U:=ucd_j_caron) (alice_window [] [])
           (py "77FF01") (py "ab12cd")); try reflexivity.
  discriminate.
Defined.

Lemma drain_unknown_only_witness :
  bells (snd (drain (U:=ucd_j_caron) [py "77FF01"; py "0A0B"]
                (alice_window [] []))) = 2%nat /\
  uid_var (snd (drain (U:=ucd_j_caron) [py "77FF01"; py "0A0B"]
                  (alice_window [] []))) = py "0A0B" /\
  logs (snd (drain (U:=ucd_j_caron) [py "77FF01"; py "0A0B"]
               (alice_window [] []))) = [].
Proof.
  destruct (drain_unknown_only (U:=ucd_j_caron) [py "77FF01"; py "0A0B"]
              (alice_window [] [])) as (_ & V & _ & B & _ & _ & _ & L).
  - repeat constructor; discriminate.
  - split; [exact B | split; [exact V | exact L]].
Defined.

Lemma drain_logs_the_known_witness :
  log_csv (files (snd (drain (U:=ucd_j_caron)
                         [py "AB12CD"; py "77FF01"; py "AB12CD"]
                         (alice_window [] []))))
  = log_file true
      [ {| rec_uid := py "AB12CD"; rec_nama := py "Alice";
           rec_waktu := py "2024-05-01 08:00:00" |};
        {| rec_uid := py "AB12CD"; rec_nama := py "Alice";
           rec_waktu := py "2024-05-01 08:00:00" |} ].
Proof.
  exact (proj1 (proj2 (drain_logs_the_known (U:=ucd_j_caron)
           [py "AB12CD"; py "77FF01"; py "AB12CD"] (alice_window [] []) []
           eq_refl eq_refl))).
Defined.

Lemma drain_stops_at_failed_write_witness :
  let a := window [alice] [] [] []
             {| users_csv := Absent; log_csv := File false [log_header] |} in
  drain (U:=ucd_j_caron) [py "AB12CD"; py "77FF01"]
    (set_serial_queue [py "AB12CD"; py "77FF01"] a) =
  (Raise (PermissionError LOG_CSV),
   set_uid_detected_var (py "AB12CD") (set_serial_queue [py "77FF01"] a)).
Proof.
  intros a.
  apply (drain_stops_at_failed_write (U:=ucd_j_caron) (py "AB12CD")
           [py "77FF01"] (set_serial_queue [py "AB12CD"; py "77FF01"] a)
           alice); try reflexivity.
  discriminate.
Defined.

Lemma absen_user_on_form_registers_witness :
  fst (absen_user_on_form (U:=ucd_j_caron)
         (open_window (alice_window (py "77 ff 01") (py " Budi "))
            (py "COM3") true)) = Returns /\
  log_csv (files (core (snd (absen_user_on_form (U:=ucd_j_caron)
         (open_window (alice_window (py "77 ff 01") (py " Budi "))
            (py "COM3") true)))))
  = log_file true
      [ {| rec_uid := py "77FF01"; rec_nama := py "Budi";
           rec_waktu := py "2024-05-01 08:00:00" |} ].
Proof.
  destruct (absen_user_on_form_registers (U:=ucd_j_caron)
              (open_window (alice_window (py "77 ff 01") (py " Budi "))
                 (py "COM3") true) [])
    as (R & _ & L & _); try reflexivity.
  - split; discriminate.
  - split; [exact R | exact L].
Defined.

Lemma registered_then_logged_witness :
  records (log_csv (files (snd (drain (U:=ucd_j_caron) [py "77FF01"]
    (register_scanned (U:=ucd_j_caron) (py "77FF01") (py " Budi ")
       (alice_window [] []))))))
  = [[py "77FF01"; py "Budi"; py "2024-05-01 08:00:00"]].
Proof.
  apply (proj2 (registered_then_logged (U:=ucd_j_caron)
                  (py "77FF01") (py " Budi ") (alice_window [] [])
                  ltac:(discriminate) eq_refl eq_refl eq_refl
                  ltac:(discriminate) eq_refl eq_refl)).
Defined.
